(** * img-upscale: the per-image pipeline of [server.js] and its handlers

    A shallow embedding of [server.js]: the values a JSON request body can
    carry, the exceptions the code can raise, a state-and-exception monad for
    the effects (progress events, child process, image library, file system,
    HTTP replies), the [path] functions the code calls, [processImage] and
    the handlers.  An [await] is a sequence point: one request is served at
    a time, and what other requests do while a run waits is not part of a
    run.  Console output is diagnostic and is not an effect here; the string
    conversions its arguments ask for are kept, since they can throw. *)

From Stdlib Require Import ZArith List Bool Ascii String Lia.
From stdpp Require Import base option list strings gmap pretty.

Local Open Scope string_scope.
Local Open Scope Z_scope.

(** ** JavaScript values *)

(** What [express.json()] can put into [req.body], plus [undefined] for a
    missing property.  [VNum n] is the number the integer literal [n] is
    parsed to, the nearest double: the code only looks at the type, the
    truthiness and the text of a number. *)
#[warnings="-register-all"]
Inductive value : Type :=
| VUndefined
| VNull
| VBool (b : bool)
| VNum (n : Z)
| VStr (s : string)
| VArr (items : list value)
| VObj (props : list (string * value)).

(** [ToBoolean]: what [if (v)] and [v || d] test. *)
Definition truthy (v : value) : bool :=
  match v with
  | VUndefined | VNull => false
  | VBool b => b
  | VNum n => negb (n =? 0)
  | VStr s => negb (String.eqb s "")
  | VArr _ | VObj _ => true
  end.

(** [a || b] *)
Definition js_or (a b : value) : value := if truthy a then a else b.

(** [v === 'lit'] for a string literal. *)
Definition strict_eq_str (v : value) (lit : string) : bool :=
  match v with
  | VStr s => String.eqb s lit
  | _ => false
  end.

Fixpoint getOwn (k : string) (props : list (string * value)) : option value :=
  match props with
  | [] => None
  | (k', v) :: rest => if String.eqb k k' then Some v else getOwn k rest
  end.

(** *** The text of a number

    [Number::toString] on an integer-valued double: the digits of the
    shortest decimal that is read back as the same double, the nearest one
    if there are two; in exponent form from [1e21] on. *)

(** The double nearest to a non-negative integer, ties to the even
    mantissa. *)
Definition to_double (n : Z) : Z :=
  let bits := Z.log2 n + 1 in
  if bits <=? 53 then n
  else
    let ulp := 2 ^ (bits - 53) in
    let q := n / ulp in
    let r := n mod ulp in
    let half := ulp / 2 in
    (if r <? half then q
     else if half <? r then q + 1
     else if Z.even q then q else q + 1) * ulp.

(** The integers that are read as the double [x] lie between the midpoints
    to its neighbours, the midpoints included when the mantissa of [x] is
    even.  The bounds are kept four-fold, the lower gap being half the
    upper one at a power of two. *)
Definition reads_as (x v : Z) : bool :=
  let e := Z.log2 x + 1 - 53 in
  let mantissa := x / 2 ^ e in
  let above := 2 ^ (e + 1) in
  let below := if mantissa =? 2 ^ 52 then 2 ^ e else 2 ^ (e + 1) in
  if Z.even mantissa
  then (4 * x - below <=? 4 * v) && (4 * v <=? 4 * x + above)
  else (4 * x - below <? 4 * v) && (4 * v <? 4 * x + above).

(** The shortest decimal that is read as [x], trying [k], [k + 1], ...
    significant digits out of the [nd] digits of [x]. *)
Fixpoint shortest (fuel : nat) (k nd x : Z) : Z :=
  match fuel with
  | O => x
  | S fuel' =>
      let p := 10 ^ (nd - k) in
      let a := x / p * p in
      let b := a + p in
      match reads_as x a, reads_as x b with
      | true, true =>
          if x - a <? b - x then a
          else if b - x <? x - a then b
          else if Z.even (a / p) then a else b
      | true, false => a
      | false, true => b
      | false, false => shortest fuel' (k + 1) nd x
      end
  end.

Fixpoint strip_zeros (rev_digits : list ascii) : list ascii :=
  match rev_digits with
  | c :: rest => if Ascii.eqb c "0" then strip_zeros rest else rev_digits
  | [] => []
  end.

Definition exponent_form (v : Z) : string :=
  let digits := list_ascii_of_string (pretty v) in
  let exponent := pretty (Z.of_nat (length digits) - 1) in
  match rev (strip_zeros (rev digits)) with
  | [] => "0"
  | [d] => String d ("e+" +:+ exponent)
  | d :: more => String d ("." +:+ string_of_list_ascii more +:+ "e+" +:+ exponent)
  end.

Definition magnitude_text (n : Z) : string :=
  let x := to_double n in
  if 2 ^ 1024 <=? x then "Infinity"
  else if x <=? 2 ^ 53 then pretty x
  else
    let nd := Z.of_nat (String.length (pretty x)) in
    let v := shortest (Z.to_nat nd) 1 nd x in
    if v <? 10 ^ 21 then pretty v else exponent_form v.

Definition number_text (n : Z) : string :=
  if n <? 0 then "-" +:+ magnitude_text (- n) else magnitude_text n.

(** *** [ToString]

    What a template literal and [Array.prototype.join] make of a value, and
    [None] where they throw: every property of a parsed body is data, so an
    own [toString] hides the callable one, the inherited [valueOf] returns
    the object itself, and the conversion ends in a [TypeError]. *)
Fixpoint to_string (v : value) : option string :=
  match v with
  | VUndefined => Some "undefined"
  | VNull => Some "null"
  | VBool true => Some "true"
  | VBool false => Some "false"
  | VNum n => Some (number_text n)
  | VStr s => Some s
  | VArr items =>
      match (fix each (l : list value) : option (list string) :=
               match l with
               | [] => Some []
               | item :: rest =>
                   match match item with
                         | VUndefined | VNull => Some EmptyString
                         | _ => to_string item
                         end, each rest with
                   | Some t, Some ts => Some (t :: ts)
                   | _, _ => None
                   end
               end) items with
      | Some parts => Some (String.concat "," parts)
      | None => None
      end
  | VObj props =>
      match getOwn "toString" props with
      | Some _ => None
      | None => Some "[object Object]"
      end
  end.

(** ** Exceptions *)

Definition dq : string := String (ascii_of_nat 34) EmptyString.

(** How Node words a value in the message of an argument-type error. *)
Definition received (v : value) : string :=
  match v with
  | VUndefined => "Received undefined"
  | VNull => "Received null"
  | VBool true => "Received type boolean (true)"
  | VBool false => "Received type boolean (false)"
  | VNum n => "Received type number (" +:+ number_text n +:+ ")"
  | VStr s => "Received type string ('" +:+ s +:+ "')"
  | VArr _ => "Received an instance of Array"
  | VObj _ => "Received an instance of Object"
  end.

(** Every exception in this program is an [Error] object or a subclass of
    it; [message] is its [.message]. *)
Inductive exn : Type :=
| InvalidArgType (arg : string) (got : value)   (* TypeError ERR_INVALID_ARG_TYPE *)
| InvalidArgValue (arg reason shown : string)   (* TypeError ERR_INVALID_ARG_VALUE *)
| NullishRead (of_ : value) (prop : string)     (* TypeError: property of undefined/null *)
| NullishDestructure (of_ : value) (prop source : string)
                                                (* TypeError: destructuring undefined/null *)
| NoPrimitive                                   (* TypeError: no string conversion *)
| HeadersSent                                   (* Error ERR_HTTP_HEADERS_SENT *)
| Enoent (call path : string)                   (* Error ENOENT from fs *)
| Error (msg : string).                         (* new Error(msg), library errors *)

Definition message (e : exn) : string :=
  match e with
  | InvalidArgType arg got =>
      "The " +:+ dq +:+ arg +:+ dq +:+ " argument must be of type string. " +:+ received got
  | InvalidArgValue arg reason shown =>
      "The argument '" +:+ arg +:+ "' " +:+ reason +:+ ". Received " +:+ shown
  | NullishRead VNull prop =>
      "Cannot read properties of null (reading '" +:+ prop +:+ "')"
  | NullishRead _ prop =>
      "Cannot read properties of undefined (reading '" +:+ prop +:+ "')"
  | NullishDestructure VNull prop source =>
      "Cannot destructure property '" +:+ prop +:+ "' of '" +:+ source
      +:+ "' as it is null."
  | NullishDestructure _ prop source =>
      "Cannot destructure property '" +:+ prop +:+ "' of '" +:+ source
      +:+ "' as it is undefined."
  | NoPrimitive => "Cannot convert object to primitive value"
  | HeadersSent => "Cannot set headers after they are sent to the client"
  | Enoent call p =>
      "ENOENT: no such file or directory, " +:+ call +:+ " '" +:+ p +:+ "'"
  | Error msg => msg
  end.

(** ** Node's [path] module, POSIX flavour

    [normalize], [join], [basename], [dirname] and [parse(p).name] as Node
    computes them where the separator is [/], over the list of characters
    of a path. *)

Module path.

Definition slash : ascii := "/"%char.
Definition dot : ascii := "."%char.

Definition chars (s : string) : list ascii := list_ascii_of_string s.
Definition str (l : list ascii) : string := string_of_list_ascii l.

(** The segments between separators: [split "a//b"] is ["a"; ""; "b"]. *)
Fixpoint split (l : list ascii) : list (list ascii) :=
  match l with
  | [] => [[]]
  | c :: rest =>
      if Ascii.eqb c slash then [] :: split rest
      else match split rest with
           | seg :: segs => (c :: seg) :: segs
           | [] => [[c]]
           end
  end.

Fixpoint unsplit (segs : list (list ascii)) : list ascii :=
  match segs with
  | [] => []
  | [seg] => seg
  | seg :: rest => (seg ++ slash :: unsplit rest)%list
  end.

Definition seg_eqb (a b : list ascii) : bool := String.eqb (str a) (str b).

(** [normalizeString]: the segments kept so far are held last-first. *)
Fixpoint resolve (allowAboveRoot : bool) (kept : list (list ascii))
    (segs : list (list ascii)) : list (list ascii) :=
  match segs with
  | [] => rev kept
  | seg :: rest =>
      if seg_eqb seg [] || seg_eqb seg [dot] then resolve allowAboveRoot kept rest
      else if seg_eqb seg [dot; dot] then
        match kept with
        | top :: below =>
            if seg_eqb top [dot; dot]
            then resolve allowAboveRoot (if allowAboveRoot then seg :: kept else kept) rest
            else resolve allowAboveRoot below rest
        | [] => resolve allowAboveRoot (if allowAboveRoot then [seg] else []) rest
        end
      else resolve allowAboveRoot (seg :: kept) rest
  end.

Definition isAbsolute (l : list ascii) : bool :=
  match l with c :: _ => Ascii.eqb c slash | [] => false end.

Definition endsWithSlash (l : list ascii) : bool := isAbsolute (rev l).

Definition normalize (p : string) : string :=
  let l := chars p in
  match l with
  | [] => "."
  | _ =>
      let abs := isAbsolute l in
      let trailing := endsWithSlash l in
      let body := unsplit (resolve (negb abs) [] (split l)) in
      match body with
      | [] => if abs then "/" else if trailing then "./" else "."
      | _ =>
          let body' := if trailing then (body ++ [slash])%list else body in
          str (if abs then slash :: body' else body')
      end
  end.

(** [path.join(a, b)] on two strings. *)
Definition join (a b : string) : string :=
  match String.eqb a "", String.eqb b "" with
  | true, true => "."
  | true, false => normalize b
  | false, true => normalize a
  | false, false => normalize (a +:+ "/" +:+ b)
  end.

Fixpoint dropSlashes (l : list ascii) : list ascii :=
  match l with
  | c :: rest => if Ascii.eqb c slash then dropSlashes rest else l
  | [] => []
  end.

Fixpoint takeSegment (l : list ascii) : list ascii :=
  match l with
  | c :: rest => if Ascii.eqb c slash then [] else c :: takeSegment rest
  | [] => []
  end.

Fixpoint dropSegment (l : list ascii) : list ascii :=
  match l with
  | c :: rest => if Ascii.eqb c slash then l else dropSegment rest
  | [] => []
  end.

(** [path.basename(p)]: the last segment, trailing separators ignored. *)
Definition basename (p : string) : string :=
  str (rev (takeSegment (dropSlashes (rev (chars p))))).

(** [path.dirname(p)] *)
Definition dirname (p : string) : string :=
  match chars p with
  | [] => "."
  | c0 :: rest =>
      let hasRoot := Ascii.eqb c0 slash in
      match dropSegment (dropSlashes (rev rest)) with
      | [] => if hasRoot then "/" else "."
      | _ :: before =>
          match before with
          | [] => if hasRoot then "//" else str [c0]
          | _ => str (c0 :: rev before)
          end
      end
  end.

(** Index of the last [.] of a segment, counted from its start. *)
Fixpoint lastDot (l : list ascii) (i : nat) (found : option nat) : option nat :=
  match l with
  | [] => found
  | c :: rest => lastDot rest (S i) (if Ascii.eqb c dot then Some i else found)
  end.

(** A path that is the root, [..] and nothing but separators after it. *)
Definition rootedDotDot (l : list ascii) : bool :=
  match l with
  | c0 :: c1 :: c2 :: rest =>
      Ascii.eqb c0 slash && Ascii.eqb c1 dot && Ascii.eqb c2 dot
      && forallb (Ascii.eqb slash) rest
  | _ => false
  end.

(** [path.parse(p).name]: the base without its extension.  There is no
    extension when the base has no dot, when its only dot is its first
    character, or when the base is [..]; but [parse] looks for the base
    [..] from the start of the path, not from behind the root, so that
    directly behind the root the second dot of [..] is taken for an
    extension. *)
Definition parse_name (p : string) : string :=
  if rootedDotDot (chars p) then "."
  else
    let base := chars (basename p) in
    match lastDot base 0%nat None with
    | None => str base
    | Some O => str base
    | Some i => if seg_eqb base [dot; dot] then str base else str (take i base)
    end.

End path.

(** ** Effects *)

(** One progress message, [io.emit('progress', {type, file, ...})]. *)
Inductive progress : Type :=
| EvStart (file : value)
| EvStep (file : value) (msg : string)
| EvComplete (file : value) (output : string)
| EvError (file : value) (msg : string).

(** The EXIF block and the encoder options handed to the image library. *)
Record exif := { Copyright : string; Artist : string; ImageDescription : value }.
Record jpegOptions := { quality : Z; chromaSubsampling : string; mozjpeg : bool }.

(** A JSON reply, [res.json(...)]. *)
Inductive reply : Type :=
| Started (count : nat)                               (* {status:'started', count} *)
| Failure (error : string)                            (* {error} *)
| Saved (upscaylBin : value) (modelsPath : string).   (* {success:true, ...} *)

(** Everything the server does to the outside, in the order it does it. *)
Inductive effect : Type :=
| Emit (e : progress)
| Spawn (bin : string) (args : list value)
| Metadata (src : string)
| ToBuffer (src : string)
| ToFile (dst : string) (tags : exif) (opts : jpegOptions)
| Unlink (p : string)
| Readdir (dir : string)
| Respond (status : Z) (body : reply).

(** What an awaited library call settles to. *)
Inductive outcome (A : Type) : Type :=
| Resolved (a : A)
| Rejected (msg : string).
Arguments Resolved {A} a.
Arguments Rejected {A} msg.

(** What becomes of a child process [spawn] is asked for. *)
Inductive child : Type :=
| Closed (code : option Z)  (* it ran up to its [close] event; [None] is the
                               code [null] of a child ended by a signal *)
| Failed                    (* it could not be started (no permission, no
                               interpreter, no descriptor left): the child
                               object emits [error] *)
| Refused (msg : string).   (* [spawn] itself threw the system's error *)

(** The external collaborators, as black boxes over the files on disk (a
    map from path to bytes; directories are not entries).  The executor
    yields what became of the child and, for a child that ran, whatever it
    did to the disk.  The image library resolves or rejects with a message;
    the bytes [toFile] resolves to are the file it has written.  [inspect]
    is [util.inspect] on a string, as the message of an argument-value
    error shows it.  A child that never ends and a library call that never
    settles are not runs of this model. *)
Record collaborators := {
  upscayl : string -> list value -> gmap string string -> child * gmap string string;
  inspect : string -> string;
  sharp_metadata : gmap string string -> string -> outcome unit;
  sharp_toBuffer : gmap string string -> string -> outcome string;
  sharp_toFile : gmap string string -> string -> exif -> jpegOptions -> string -> outcome string;
  readdir : gmap string string -> string -> outcome (list string)
}.

(** The server's mutable globals, the disk, the response of the request
    being served, and the effects so far. *)
Record state := {
  fs : gmap string string;
  UPSCAYL_BIN : value;
  MODELS_PATH : string;
  headersSent : bool;
  trace : list effect
}.

Definition with_fs (d : gmap string string) (s : state) : state :=
  {| fs := d; UPSCAYL_BIN := UPSCAYL_BIN s; MODELS_PATH := MODELS_PATH s;
     headersSent := headersSent s; trace := trace s |}.
Definition with_bin (v : value) (s : state) : state :=
  {| fs := fs s; UPSCAYL_BIN := v; MODELS_PATH := MODELS_PATH s;
     headersSent := headersSent s; trace := trace s |}.
Definition with_models (m : string) (s : state) : state :=
  {| fs := fs s; UPSCAYL_BIN := UPSCAYL_BIN s; MODELS_PATH := m;
     headersSent := headersSent s; trace := trace s |}.
Definition with_sent (b : bool) (s : state) : state :=
  {| fs := fs s; UPSCAYL_BIN := UPSCAYL_BIN s; MODELS_PATH := MODELS_PATH s;
     headersSent := b; trace := trace s |}.
Definition record (e : effect) (s : state) : state :=
  {| fs := fs s; UPSCAYL_BIN := UPSCAYL_BIN s; MODELS_PATH := MODELS_PATH s;
     headersSent := headersSent s; trace := (trace s ++ [e])%list |}.

(** The globals as [server.js] initialises them. *)
Definition boot (disk : gmap string string) : state :=
  {| fs := disk;
     UPSCAYL_BIN := VStr "C:\Program Files\Upscayl\resources\bin\upscayl-bin.exe";
     MODELS_PATH := "C:\Program Files\Upscayl\resources\models";
     headersSent := false;
     trace := [] |}.

(** How a statement ends.  [Unsettled] is the end of a statement that
    awaits a promise nothing will settle: here, the promise around a child
    that emits [error], an event the code does not listen to, so that Node
    raises it as an uncaught exception and the process ends. *)
Inductive result (A : Type) : Type :=
| Ok (a : A)
| Throw (e : exn)
| Unsettled.
Arguments Ok {A} a.
Arguments Throw {A} e.
Arguments Unsettled {A}.

(** State and exceptions: a statement completes, throws, or never gets
    further, and what it did before stays done. *)
Definition M (A : Type) : Type := state -> result A * state.

Definition ret {A} (a : A) : M A := fun s => (Ok a, s).
Definition throw {A} (e : exn) : M A := fun s => (Throw e, s).
Definition bind {A B} (m : M A) (k : A -> M B) : M B :=
  fun s => match m s with
           | (Ok a, s') => k a s'
           | (Throw e, s') => (Throw e, s')
           | (Unsettled, s') => (Unsettled, s')
           end.
Definition try_catch {A} (m : M A) (handler : exn -> M A) : M A :=
  fun s => match m s with
           | (Ok a, s') => (Ok a, s')
           | (Throw e, s') => handler e s'
           | (Unsettled, s') => (Unsettled, s')
           end.

Declare Scope js_scope.
Delimit Scope js_scope with js.
Notation "x <- m ;; k" := (bind m (fun x => k))
  (at level 100, m at next level, k at level 200, right associativity) : js_scope.
Notation "m ;; k" := (bind m (fun _ => k))
  (at level 100, k at level 200, right associativity) : js_scope.
Local Open Scope js_scope.

Definition get {A} (f : state -> A) : M A := fun s => (Ok (f s), s).
Definition modify (f : state -> state) : M unit := fun s => (Ok tt, f s).
Definition when (b : bool) (m : M unit) : M unit := if b then m else ret tt.

(** [for (const x of xs) await f(x)] *)
Fixpoint for_of {A} (xs : list A) (f : A -> M unit) : M unit :=
  match xs with
  | [] => ret tt
  | x :: rest => f x ;; for_of rest f
  end.

(** [await p] on a library promise. *)
Definition await {A} (o : outcome A) : M A :=
  match o with
  | Resolved a => ret a
  | Rejected msg => throw (Error msg)
  end.

(** The value of [o.k] where reading it does not throw, for a key that is
    no built-in property: the own property of an object, [undefined]
    elsewhere. *)
Definition field (o : value) (k : string) : value :=
  match o with
  | VObj props => default VUndefined (getOwn k props)
  | _ => VUndefined
  end.

(** [o.k]: a [TypeError] on [undefined] and [null]. *)
Definition js_get (o : value) (k : string) : M value :=
  match o with
  | VUndefined | VNull => throw (NullishRead o k)
  | _ => ret (field o k)
  end.

(** [const { k, ... } = o], where the source text of [o] is [source]: the
    [TypeError] on [undefined] and [null] names the first property. *)
Definition destructure (o : value) (k source : string) : M unit :=
  match o with
  | VUndefined | VNull => throw (NullishDestructure o k source)
  | _ => ret tt
  end.

(** The string conversions of the values a template literal holds. *)
Fixpoint template (parts : list value) : M unit :=
  match parts with
  | [] => ret tt
  | v :: rest =>
      match to_string v with
      | Some _ => template rest
      | None => throw NoPrimitive
      end
  end.

(** [items.join(sep)]: [undefined] and [null] give the empty string. *)
Fixpoint joined (sep : string) (items : list value) : option string :=
  match items with
  | [] => Some EmptyString
  | item :: rest =>
      match match item with
            | VUndefined | VNull => Some EmptyString
            | _ => to_string item
            end, joined sep rest with
      | Some t, Some ts =>
          Some (match rest with [] => t | _ => t +:+ sep +:+ ts end)
      | _, _ => None
      end
  end.

Definition array_join (items : list value) (sep : string) : M string :=
  match joined sep items with
  | Some t => ret t
  | None => throw NoPrimitive
  end.

(** [validateString(v, name)], the guard of every [path] function. *)
Definition validateString (v : value) (name : string) : M string :=
  match v with
  | VStr s => ret s
  | _ => throw (InvalidArgType name v)
  end.

Definition path_join (a : string) (b : value) : M string :=
  b' <- validateString b "path" ;; ret (path.join a b').
Definition path_parse_name (p : value) : M string :=
  p' <- validateString p "path" ;; ret (path.parse_name p').
Definition path_dirname (p : value) : M string :=
  p' <- validateString p "path" ;; ret (path.dirname p').

Definition emit (e : progress) : M unit := modify (record (Emit e)).

(** Whether a value is the path of a file on a disk. *)
Definition on_disk (p : value) (d : gmap string string) : bool :=
  match p with
  | VStr p' => bool_decide (is_Some (d !! p'))
  | _ => false
  end.

(** [fs.existsSync]: [false] for anything that is not a path. *)
Definition existsSync (p : value) : M bool := get (fun s => on_disk p (fs s)).

(** [fs.unlinkSync]: throws where there is no such file. *)
Definition unlinkSync (p : string) : M unit :=
  fun s => match fs s !! p with
           | Some _ => (Ok tt, record (Unlink p) (with_fs (delete p (fs s)) s))
           | None => (Throw (Enoent "unlink" p), s)
           end.

(** [res.json(body)] with the status set before it. *)
Definition respond (status : Z) (body : reply) : M unit :=
  fun s => if headersSent s then (Throw HeadersSent, s)
           else (Ok tt, record (Respond status body) (with_sent true s)).

(** ** The server *)

(** [/\.(png|jpg|jpeg|webp)$/i.test(f)]: without the [u] flag, [i] folds
    only ASCII letters onto the ASCII letters of the pattern. *)
Definition lower (c : ascii) : ascii :=
  let n := nat_of_ascii c in
  if ((65 <=? n)%nat && (n <=? 90)%nat)%bool then ascii_of_nat (n + 32) else c.

(** Whether [s], letters folded to lower case, ends with [suffix]. *)
Definition endsWith (suffix : string) (s : string) : bool :=
  let suf := rev (path.chars suffix) in
  let l := rev (map lower (path.chars s)) in
  path.seg_eqb (take (length suf) l) suf.

Definition is_image (f : string) : bool :=
  endsWith ".png" f || endsWith ".jpg" f || endsWith ".jpeg" f || endsWith ".webp" f.

(** What the pattern is meant to accept: a name that ends in a dot and one
    of the four extensions, in any case. *)
Definition lowercase (s : string) : string := path.str (map lower (path.chars s)).
Definition image_extensions : list string := ["png"; "jpg"; "jpeg"; "webp"].
Definition has_image_extension (f : string) : Prop :=
  exists stem ext, f = stem +:+ "." +:+ ext /\ In (lowercase ext) image_extensions.

(** Whether a character occurs in a string. *)
Definition mentions (c : ascii) (s : string) : bool :=
  existsb (Ascii.eqb c) (path.chars s).

(** A plain segment: not empty, not [.] or [..], without separator.  A
    plain name is a file name that is one plain segment, and [absolute segs]
    is the absolute, normalised path with these segments. *)
Definition plain_segment (seg : list ascii) : bool :=
  negb (path.seg_eqb seg []) && negb (path.seg_eqb seg [path.dot])
  && negb (path.seg_eqb seg [path.dot; path.dot])
  && negb (existsb (Ascii.eqb path.slash) seg).
Definition plain_name (f : string) : bool := plain_segment (path.chars f).
Definition absolute (segs : list (list ascii)) : string :=
  path.str (path.slash :: path.unsplit segs).

Definition ARTIST : string := "Akhlaque".

Definition warning_sign : string := "⚠️".

Definition warning_msg : string := warning_sign +:+ " Upscayl not found - skipping upscaling".

Record dirs := { input : string; output : string; temp : string; uploads : string }.

(** The argument vector of the executor. *)
Definition argv (inp tmp models : string) (settings : value) : list value :=
  [VStr "-i"; VStr inp;
   VStr "-o"; VStr tmp;
   VStr "-s"; VStr "4";
   VStr "-m"; VStr models;
   VStr "-n"; js_or (field settings "model") (VStr "upscayl-standard-4x");
   VStr "-f"; VStr "png"].

Definition tags_of (fileName : value) : exif :=
  {| Copyright := ARTIST; Artist := ARTIST; ImageDescription := fileName |}.
Definition jpeg_settings : jpegOptions :=
  {| quality := 95; chromaSubsampling := "4:4:4"; mozjpeg := true |}.

(** [s] after the effects [t], with disk [d] and the globals untouched. *)
Definition advance (s : state) (t : list effect) (d : gmap string string) : state :=
  {| fs := d; UPSCAYL_BIN := UPSCAYL_BIN s; MODELS_PATH := MODELS_PATH s;
     headersSent := headersSent s; trace := (trace s ++ t)%list |}.

(** The unlink a guarded [if (fs.existsSync(p)) fs.unlinkSync(p)] performs. *)
Definition unlink_of (p : string) (d : gmap string string) : list effect :=
  if on_disk (VStr p) d then [Unlink p] else [].

Definition cleanup (tmp inp : string) (d : gmap string string) : list effect :=
  (unlink_of tmp d ++ unlink_of inp (delete tmp d))%list.

Section Server.

(** The directory of [server.js] and the collaborators it runs against. *)
Variable __dirname : string.
Variable X : collaborators.

Definition DIRS : dirs :=
  {| input := path.join __dirname "input";
     output := path.join __dirname "output";
     temp := path.join __dirname "temp";
     uploads := path.join __dirname "uploads" |}.

Definition isUpscaylAvailable : M bool :=
  bin <- get UPSCAYL_BIN ;; existsSync bin.

(** [validateArgumentNullCheck]: a string argument must hold no NUL. *)
Definition has_nul (t : string) : bool := existsb (Ascii.eqb Ascii.zero) (path.chars t).

Definition null_check (arg : string) (v : value) : option exn :=
  match v with
  | VStr t =>
      if has_nul t
      then Some (InvalidArgValue arg "must be a string without null bytes" (inspect X t))
      else None
  | _ => None
  end.

Fixpoint null_checks (i : nat) (args : list value) : option exn :=
  match args with
  | [] => None
  | a :: rest =>
      match null_check ("args[" +:+ pretty i +:+ "]") a with
      | Some e => Some e
      | None => null_checks (S i) rest
      end
  end.

(** What [spawn(file, args)] throws on its arguments, before there is any
    child. *)
Definition spawn_check (file : string) (args : list value) : option exn :=
  match null_check "file" (VStr file) with
  | Some e => Some e
  | None =>
      if String.eqb file ""
      then Some (InvalidArgValue "file" "cannot be empty" (inspect X file))
      else null_checks 0 args
  end.

(** [spawn(bin, args)] inside the promise that the child's [close] event
    settles.  A child that fails to start emits [error] instead, to no
    listener. *)
Definition spawn (bin : value) (args : list value) : M (option Z) :=
  file <- validateString bin "file" ;;
  match spawn_check file args with
  | Some e => throw e
  | None =>
      fun s => match upscayl X file args (fs s) with
               | (Closed code, disk) =>
                   (Ok code, record (Spawn file args) (with_fs disk s))
               | (Failed, _) => (Unsettled, record (Spawn file args) s)
               | (Refused msg, _) => (Throw (Error msg), s)
               end
  end.

(** The template literal on the exit code. *)
Definition show_code (code : option Z) : string :=
  match code with
  | Some n => number_text n
  | None => "null"
  end.

Definition sharp_metadata_ (src : string) : M unit :=
  modify (record (Metadata src)) ;;
  d <- get fs ;; await (sharp_metadata X d src).

Definition sharp_toBuffer_ (src : string) : M string :=
  modify (record (ToBuffer src)) ;;
  d <- get fs ;; await (sharp_toBuffer X d src).

Definition sharp_toFile_ (buf : string) (tags : exif) (opts : jpegOptions)
    (dst : string) : M unit :=
  modify (record (ToFile dst tags opts)) ;;
  d <- get fs ;;
  bytes <- await (sharp_toFile X d buf tags opts dst) ;;
  modify (with_fs (<[dst := bytes]> d)).

(** Stage 1 of the [try] block: the path later stages read from. *)
Definition upscaleStage (fileName settings : value)
    (inputPath tempUpscaledPath : string) : M string :=
  upscale <- js_get settings "upscale" ;;
  if truthy upscale then
    available <- isUpscaylAvailable ;;
    if negb available then
      (* console.warn(`[${fileName}] Upscayl not found at ${UPSCAYL_BIN}. ...`) *)
      bin <- get UPSCAYL_BIN ;;
      template [fileName; bin] ;;
      emit (EvStep fileName (warning_sign +:+ " Upscayl not found - skipping upscaling")) ;;
      ret inputPath
    else
      emit (EvStep fileName "Upscaling...") ;;
      models <- get MODELS_PATH ;;
      model <- js_get settings "model" ;;
      let args := [VStr "-i"; VStr inputPath;
                   VStr "-o"; VStr tempUpscaledPath;
                   VStr "-s"; VStr "4";
                   VStr "-m"; VStr models;
                   VStr "-n"; js_or model (VStr "upscayl-standard-4x");
                   VStr "-f"; VStr "png"] in
      (* console.log('Running Upscayl:', UPSCAYL_BIN, args.join(' ')) *)
      array_join args " " ;;
      bin <- get UPSCAYL_BIN ;;
      code <- spawn bin args ;;
      match code with
      | Some 0 => ret tt
      | _ => throw (Error ("Upscayl exited with code " +:+ show_code code))
      end ;;
      ret tempUpscaledPath
  else ret inputPath.

(** Stage 2 of the [try] block: the image library, the cleanup and the
    [complete] event. *)
Definition sharpStage (fileName : value)
    (inputPath tempUpscaledPath finalOutputPath currentPath : string) : M unit :=
  emit (EvStep fileName "Optimizing & Tagging...") ;;
  sharp_metadata_ currentPath ;;
  template [fileName] ;;     (* console.log(`[${fileName}] Original Metadata:`, ...) *)
  cleanBuffer <- sharp_toBuffer_ currentPath ;;
  sharp_toFile_ cleanBuffer
    {| Copyright := ARTIST; Artist := ARTIST; ImageDescription := fileName |}
    {| quality := 95; chromaSubsampling := "4:4:4"; mozjpeg := true |}
    finalOutputPath ;;
  hasTemp <- existsSync (VStr tempUpscaledPath) ;;
  when hasTemp (unlinkSync tempUpscaledPath) ;;
  hasInput <- existsSync (VStr inputPath) ;;
  when hasInput
    (unlinkSync inputPath ;;
     template [fileName]) ;;  (* console.log(`[${fileName}] Deleted from input folder`) *)
  emit (EvComplete fileName ("/output/" +:+ path.basename finalOutputPath)) ;;
  template [fileName].       (* console.log(`[${fileName}] Processed & Tagged ...`) *)

(** The body of the [try] block. *)
Definition processImage_try (fileName settings : value)
    (inputPath tempUpscaledPath finalOutputPath : string) : M unit :=
  currentPath <- upscaleStage fileName settings inputPath tempUpscaledPath ;;
  sharpStage fileName inputPath tempUpscaledPath finalOutputPath currentPath.

Definition processImage (fileName settings : value) : M unit :=
  inputPath <- path_join (input DIRS) fileName ;;
  tempUpscaledPath <- path_join (temp DIRS) fileName ;;
  stem <- path_parse_name fileName ;;
  let finalOutputPath := path.join (output DIRS) (stem +:+ ".jpg") in
  emit (EvStart fileName) ;;
  try_catch
    (processImage_try fileName settings inputPath tempUpscaledPath finalOutputPath)
    (fun err =>
       template [fileName] ;; (* console.error(`Error processing ${fileName}:`, err) *)
       emit (EvError fileName (message err))).

(** [fs.readdirSync(dir)] *)
Definition readdirSync (dir : string) : M (list string) :=
  modify (record (Readdir dir)) ;;
  d <- get fs ;; await (readdir X d dir).

(** [POST /api/process] on a parsed body, with a fresh response. *)
Definition post_process (body : value) : M unit :=
  modify (with_sent false) ;;
  destructure body "filename" "req.body" ;;
  let filename := field body "filename" in
  let settings := field body "settings" in
  try_catch
    (files <- (if strict_eq_str filename "all"
               then listing <- readdirSync (input DIRS) ;;
                    ret (map VStr (List.filter is_image listing))
               else ret [filename]) ;;
     respond 200 (Started (length files)) ;;
     for_of files (fun file => processImage file settings))
    (fun err => respond 500 (Failure (message err))).

(** [POST /api/config] on a parsed body, with a fresh response. *)
Definition post_config (body : value) : M unit :=
  modify (with_sent false) ;;
  p <- js_get body "path" ;;
  (if truthy p then
     modify (with_bin p) ;;
     bin <- get UPSCAYL_BIN ;;
     binDir <- path_dirname bin ;;
     modify (with_models (path.join (path.dirname binDir) "models"))
   else ret tt) ;;
  bin <- get UPSCAYL_BIN ;;
  models <- get MODELS_PATH ;;
  respond 200 (Saved bin models).

(** The three paths of a run, as functions of a file name. *)
Definition inputPath (f : string) : string := path.join (input DIRS) f.
Definition tempUpscaledPath (f : string) : string := path.join (temp DIRS) f.
Definition finalOutputPath (f : string) : string :=
  path.join (output DIRS) (path.parse_name f +:+ ".jpg").

(** The [try] block of a run on the file name [f]. *)
Definition attempt (f : string) (settings : value) (s : state) : result unit * state :=
  processImage_try (VStr f) settings (inputPath f) (tempUpscaledPath f)
    (finalOutputPath f) (record (Emit (EvStart (VStr f))) s).

(** The files of a batch, one after the other, each from the state the
    previous one left, up to the first run that does not return; and
    whether all of them return. *)
Fixpoint in_turn (settings : value) (files : list string) (s : state) : state :=
  match files with
  | [] => s
  | f :: rest =>
      match processImage (VStr f) settings s with
      | (Ok _, s') => in_turn settings rest s'
      | (_, s') => s'
      end
  end.

Fixpoint all_return (settings : value) (files : list string) (s : state) : bool :=
  match files with
  | [] => true
  | f :: rest =>
      match processImage (VStr f) settings s with
      | (Ok _, s') => all_return settings rest s'
      | _ => false
      end
  end.

(** *** What a run can look like

    The runs of the two stages on a file name [f], case by case: the
    result, and the state reached from [s]. *)

Inductive upscale_run (f : string) (settings : value) (inp tmp : string) (s : state)
  : result string -> state -> Prop :=
| upscale_unreadable :
    settings = VUndefined \/ settings = VNull ->
    upscale_run f settings inp tmp s (Throw (NullishRead settings "upscale")) s
| upscale_off :
    truthy (field settings "upscale") = false ->
    upscale_run f settings inp tmp s (Ok inp) s
| upscale_skipped :
    truthy (field settings "upscale") = true ->
    on_disk (UPSCAYL_BIN s) (fs s) = false ->
    to_string (UPSCAYL_BIN s) <> None ->
    upscale_run f settings inp tmp s (Ok inp)
      (advance s [Emit (EvStep (VStr f) warning_msg)] (fs s))
| upscale_unnamed :
    truthy (field settings "upscale") = true ->
    on_disk (UPSCAYL_BIN s) (fs s) = false ->
    to_string (UPSCAYL_BIN s) = None ->
    upscale_run f settings inp tmp s (Throw NoPrimitive) s
| upscale_unprintable bin :
    truthy (field settings "upscale") = true ->
    UPSCAYL_BIN s = VStr bin ->
    is_Some (fs s !! bin) ->
    joined " " (argv inp tmp (MODELS_PATH s) settings) = None ->
    upscale_run f settings inp tmp s (Throw NoPrimitive)
      (advance s [Emit (EvStep (VStr f) "Upscaling...")] (fs s))
| upscale_invalid bin e :
    truthy (field settings "upscale") = true ->
    UPSCAYL_BIN s = VStr bin ->
    is_Some (fs s !! bin) ->
    joined " " (argv inp tmp (MODELS_PATH s) settings) <> None ->
    spawn_check bin (argv inp tmp (MODELS_PATH s) settings) = Some e ->
    upscale_run f settings inp tmp s (Throw e)
      (advance s [Emit (EvStep (VStr f) "Upscaling...")] (fs s))
| upscale_refused bin msg disk :
    truthy (field settings "upscale") = true ->
    UPSCAYL_BIN s = VStr bin ->
    is_Some (fs s !! bin) ->
    joined " " (argv inp tmp (MODELS_PATH s) settings) <> None ->
    spawn_check bin (argv inp tmp (MODELS_PATH s) settings) = None ->
    upscayl X bin (argv inp tmp (MODELS_PATH s) settings) (fs s) = (Refused msg, disk) ->
    upscale_run f settings inp tmp s (Throw (Error msg))
      (advance s [Emit (EvStep (VStr f) "Upscaling...")] (fs s))
| upscale_unstartable bin disk :
    truthy (field settings "upscale") = true ->
    UPSCAYL_BIN s = VStr bin ->
    is_Some (fs s !! bin) ->
    joined " " (argv inp tmp (MODELS_PATH s) settings) <> None ->
    spawn_check bin (argv inp tmp (MODELS_PATH s) settings) = None ->
    upscayl X bin (argv inp tmp (MODELS_PATH s) settings) (fs s) = (Failed, disk) ->
    upscale_run f settings inp tmp s Unsettled
      (advance s [Emit (EvStep (VStr f) "Upscaling...");
                  Spawn bin (argv inp tmp (MODELS_PATH s) settings)] (fs s))
| upscale_ok bin disk :
    truthy (field settings "upscale") = true ->
    UPSCAYL_BIN s = VStr bin ->
    is_Some (fs s !! bin) ->
    joined " " (argv inp tmp (MODELS_PATH s) settings) <> None ->
    spawn_check bin (argv inp tmp (MODELS_PATH s) settings) = None ->
    upscayl X bin (argv inp tmp (MODELS_PATH s) settings) (fs s)
      = (Closed (Some 0), disk) ->
    upscale_run f settings inp tmp s (Ok tmp)
      (advance s [Emit (EvStep (VStr f) "Upscaling...");
                  Spawn bin (argv inp tmp (MODELS_PATH s) settings)] disk)
| upscale_failed bin code disk :
    truthy (field settings "upscale") = true ->
    UPSCAYL_BIN s = VStr bin ->
    is_Some (fs s !! bin) ->
    joined " " (argv inp tmp (MODELS_PATH s) settings) <> None ->
    spawn_check bin (argv inp tmp (MODELS_PATH s) settings) = None ->
    upscayl X bin (argv inp tmp (MODELS_PATH s) settings) (fs s) = (Closed code, disk) ->
    code <> Some 0 ->
    upscale_run f settings inp tmp s
      (Throw (Error ("Upscayl exited with code " +:+ show_code code)))
      (advance s [Emit (EvStep (VStr f) "Upscaling...");
                  Spawn bin (argv inp tmp (MODELS_PATH s) settings)] disk).

Inductive sharp_run (f : string) (inp tmp final cur : string) (s : state)
  : result unit -> state -> Prop :=
| sharp_no_metadata msg :
    sharp_metadata X (fs s) cur = Rejected msg ->
    sharp_run f inp tmp final cur s (Throw (Error msg))
      (advance s [Emit (EvStep (VStr f) "Optimizing & Tagging..."); Metadata cur] (fs s))
| sharp_no_buffer u msg :
    sharp_metadata X (fs s) cur = Resolved u ->
    sharp_toBuffer X (fs s) cur = Rejected msg ->
    sharp_run f inp tmp final cur s (Throw (Error msg))
      (advance s [Emit (EvStep (VStr f) "Optimizing & Tagging..."); Metadata cur;
                  ToBuffer cur] (fs s))
| sharp_no_file u buf msg :
    sharp_metadata X (fs s) cur = Resolved u ->
    sharp_toBuffer X (fs s) cur = Resolved buf ->
    sharp_toFile X (fs s) buf (tags_of (VStr f)) jpeg_settings final = Rejected msg ->
    sharp_run f inp tmp final cur s (Throw (Error msg))
      (advance s [Emit (EvStep (VStr f) "Optimizing & Tagging..."); Metadata cur;
                  ToBuffer cur; ToFile final (tags_of (VStr f)) jpeg_settings] (fs s))
| sharp_done u buf bytes :
    sharp_metadata X (fs s) cur = Resolved u ->
    sharp_toBuffer X (fs s) cur = Resolved buf ->
    sharp_toFile X (fs s) buf (tags_of (VStr f)) jpeg_settings final = Resolved bytes ->
    sharp_run f inp tmp final cur s (Ok tt)
      (advance s
         ([Emit (EvStep (VStr f) "Optimizing & Tagging..."); Metadata cur;
           ToBuffer cur; ToFile final (tags_of (VStr f)) jpeg_settings]
          ++ cleanup tmp inp (<[final := bytes]> (fs s))
          ++ [Emit (EvComplete (VStr f) ("/output/" +:+ path.basename final))])%list
         (delete inp (delete tmp (<[final := bytes]> (fs s))))).

Inductive try_run (f : string) (settings : value) (inp tmp final : string) (s : state)
  : result unit -> state -> Prop :=
| try_upscale_threw e s1 :
    upscale_run f settings inp tmp s (Throw e) s1 ->
    try_run f settings inp tmp final s (Throw e) s1
| try_upscale_unsettled s1 :
    upscale_run f settings inp tmp s Unsettled s1 ->
    try_run f settings inp tmp final s Unsettled s1
| try_sharp cur s1 r s2 :
    upscale_run f settings inp tmp s (Ok cur) s1 ->
    sharp_run f inp tmp final cur s1 r s2 ->
    try_run f settings inp tmp final s r s2.

End Server.

(** The progress events among the effects. *)
Definition events (t : list effect) : list progress :=
  omap (fun e => match e with Emit p => Some p | _ => None end) t.

(** The effects between two states of one execution. *)
Definition since (s s' : state) : list effect := drop (length (trace s)) (trace s').

Definition is_step_of (file : value) (e : progress) : Prop :=
  exists msg, e = EvStep file msg.
Definition is_terminal_of (file : value) (e : progress) : Prop :=
  (exists out, e = EvComplete file out) \/ (exists msg, e = EvError file msg).

(** A run is successful when the last thing it does is emit [complete]. *)
Definition successful (t : list effect) : Prop :=
  exists file out, last t = Some (Emit (EvComplete file out)).

Definition is_unlink (e : effect) : Prop := exists p, e = Unlink p.


(** ** The other handlers of [server.js]

    The GET handlers and the upload handler reply once, at their end: each
    is the computation of the body it hands to [res.json]. *)

(** [GET /api/config]: [{upscaylBin, upscaylAvailable}]. *)
Record config_view := { upscaylBin : value; upscaylAvailable : bool }.

Definition get_config : M config_view :=
  bin <- get UPSCAYL_BIN ;;
  available <- existsSync bin ;;
  ret {| upscaylBin := bin; upscaylAvailable := available |}.

(** [fs.renameSync(src, dst)]: moves the file, replacing what is at [dst];
    throws where there is no [src]. *)
Definition renameSync (src dst : string) : M unit :=
  fun s => match fs s !! src with
           | Some bytes => (Ok tt, with_fs (<[dst := bytes]> (delete src (fs s))) s)
           | None => (Throw (Enoent "rename" (src +:+ "' -> '" +:+ dst)), s)
           end.

(** [fs.statSync(p).size]: the number of bytes of the file. *)
Definition statSync_size (p : string) : M N :=
  fun s => match fs s !! p with
           | Some bytes => (Ok (N.of_nat (String.length bytes)), s)
           | None => (Throw (Enoent "stat" p), s)
           end.

(** [xs.map(f)] for an [f] that may throw. *)
Fixpoint map_m {A B} (f : A -> M B) (xs : list A) : M (list B) :=
  match xs with
  | [] => ret []
  | x :: rest => y <- f x ;; ys <- map_m f rest ;; ret (y :: ys)
  end.

(** [/\.(jpg|png|jpeg)$/i.test(f)], the pattern of the gallery. *)
Definition is_output_image (f : string) : bool :=
  endsWith ".jpg" f || endsWith ".png" f || endsWith ".jpeg" f.

Definition two_digits (n : N) : string :=
  if (n <? 10)%N then "0" +:+ pretty n else pretty n.

(** [(size / 1024 / 1024).toFixed(2) + ' MB']: both divisions are exact, and
    [toFixed(2)] takes the integer [n] nearest to a hundred times the
    quotient, the larger one on a tie. *)
Definition megabytes (size : N) : string :=
  let n := ((size * 100 + 524288) / 1048576)%N in
  pretty (n / 100)%N +:+ "." +:+ two_digits (n mod 100)%N +:+ " MB".

(** One entry of [GET /api/files]. *)
Record file_view := { file_name : string; file_url : string; file_size : string }.

(** What multer hands over for one uploaded file. *)
Record upload_file := { file_path : string; originalname : string }.

Section Handlers.

Variable __dirname : string.
Variable X : collaborators.

(** [f => ({name: f, url: `/output/${f}`, size: ...})] *)
Definition file_entry (f : string) : M file_view :=
  bytes <- statSync_size (path.join (output (DIRS __dirname)) f) ;;
  ret {| file_name := f; file_url := "/output/" +:+ f; file_size := megabytes bytes |}.

(** [GET /api/files] *)
Definition get_files : M (list file_view) :=
  listing <- readdirSync X (output (DIRS __dirname)) ;;
  map_m file_entry (List.filter is_output_image listing).

(** An entry of the gallery that tells the truth about the disk [d]: its
    link is the name under [/output/], and its size is the one of the file
    of that name in the output directory. *)
Definition describes (d : gmap string string) (e : file_view) : Prop :=
  file_url e = "/output/" +:+ file_name e /\
  exists bytes, d !! path.join (output (DIRS __dirname)) (file_name e) = Some bytes /\
                file_size e = megabytes (N.of_nat (String.length bytes)).

(** [POST /api/upload] on the files multer has stored. *)
Definition post_upload (files : list upload_file) : M nat :=
  for_of files (fun file =>
    let targetPath := path.join (input (DIRS __dirname)) (originalname file) in
    renameSync (file_path file) targetPath) ;;
  ret (length files).

(** Where an uploaded file goes. *)
Definition target (file : upload_file) : string :=
  path.join (input (DIRS __dirname)) (originalname file).

End Handlers.

(** ** The progress handler of [public/script.js] *)

(** [s.includes(sub)] *)
Definition includes (sub s : string) : bool :=
  match index 0 sub s with Some _ => true | None => false end.

(** What the handler reads and writes of the page: the progress section,
    the status line, the bar, the gallery reloads it has asked for and the
    one-second resets of the bar it has scheduled. *)
Record page := {
  progressHidden : bool;
  statusText : string;
  statusColor : string;
  barWidth : string;
  galleryLoads : nat;
  pendingResets : nat
}.

(** [socket.on('progress', (data) => ...)].  The section is shown first; a
    template literal on a file without string conversion then throws, and
    the handler has done nothing else. *)
Definition on_progress (data : progress) (v : page) : page :=
  let uncovered :=
    {| progressHidden := false;
       statusText := statusText v;
       statusColor := statusColor v;
       barWidth := barWidth v;
       galleryLoads := galleryLoads v;
       pendingResets := pendingResets v |} in
  match data with
  | EvStart file =>
      match to_string file with
      | Some name =>
          {| progressHidden := false;
             statusText := "Processing " +:+ name +:+ "...";
             statusColor := statusColor v;
             barWidth := "10%";
             galleryLoads := galleryLoads v;
             pendingResets := pendingResets v |}
      | None => uncovered
      end
  | EvStep file msg =>
      match to_string file with
      | Some name =>
          {| progressHidden := false;
             statusText := name +:+ ": " +:+ msg;
             statusColor := statusColor v;
             barWidth := if includes "Optimizing" msg then "70%"
                         else if includes "Upscaling" msg then "40%"
                         else barWidth v;
             galleryLoads := galleryLoads v;
             pendingResets := pendingResets v |}
      | None => uncovered
      end
  | EvComplete file _ =>
      match to_string file with
      | Some name =>
          {| progressHidden := false;
             statusText := "Completed " +:+ name;
             statusColor := statusColor v;
             barWidth := "100%";
             galleryLoads := S (galleryLoads v);
             pendingResets := S (pendingResets v) |}
      | None => uncovered
      end
  | EvError _ msg =>
      {| progressHidden := false;
         statusText := "Error: " +:+ msg;
         statusColor := "#ef4444";
         barWidth := barWidth v;
         galleryLoads := galleryLoads v;
         pendingResets := pendingResets v |}
  end.

(** The page after a sequence of progress events between which no reset
    fires. *)
Definition shown (evs : list progress) (v : page) : page :=
  foldl (fun page data => on_progress data page) v evs.

(** The callback [complete] leaves with [setTimeout], one second later:
    [() => { progressBar.style.width = '0%' }]. *)
Definition reset_bar (v : page) : page :=
  {| progressHidden := progressHidden v;
     statusText := statusText v;
     statusColor := statusColor v;
     barWidth := "0%";
     galleryLoads := galleryLoads v;
     pendingResets := pred (pendingResets v) |}.

(** What happens on the page: a progress event arrives, or one of the
    pending resets fires. *)
Inductive happening : Type :=
| Arrives (data : progress)
| Fires.

(** The page after a sequence of happenings; there is none where a reset
    fires that nothing has scheduled. *)
Fixpoint displayed (hs : list happening) (v : page) : option page :=
  match hs with
  | [] => Some v
  | Arrives data :: rest => displayed rest (on_progress data v)
  | Fires :: rest =>
      match pendingResets v with
      | O => None
      | S _ => displayed rest (reset_bar v)
      end
  end.

(** The progress events among the happenings. *)
Definition arrivals (hs : list happening) : list progress :=
  omap (fun h => match h with Arrives data => Some data | Fires => None end) hs.

(** Two pages that differ at most in the bar and in the resets pending. *)
Definition same_status (v w : page) : Prop :=
  progressHidden v = progressHidden w /\
  statusText v = statusText w /\
  statusColor v = statusColor w /\
  galleryLoads v = galleryLoads w.

(** The places a failed run can leave the bar at. *)
Definition stalled (width : string) : Prop :=
  width = "0%" \/ width = "10%" \/ width = "40%" \/ width = "70%".

(** ** What the page sends and shows *)

(** The body [startProcessing] posts to [/api/process], as the server
    parses it: the state of the checkbox and the selected model. *)
Definition process_request (checked : bool) (model : string) : value :=
  VObj [("filename", VStr "all");
        ("settings", VObj [("upscale", VBool checked); ("model", VStr model)])].

(** The body the settings dialog posts to [/api/config] on Save, if it
    posts one: [if (path) { ... JSON.stringify({ path }) ... }]. *)
Definition save_request (path : string) : option value :=
  if truthy (VStr path) then Some (VObj [("path", VStr path)]) else None.

(** What [fetchConfig] puts in the path field of the dialog,
    [data.upscaylBin || '']; the assignment throws on a value without
    string conversion. *)
Definition shown_path (view : config_view) : option string :=
  to_string (js_or (upscaylBin view) (VStr EmptyString)).

(** ** A laboratory instance of the collaborators

    An executor that succeeds on an existing input and leaves a png at the
    output path, and fails with code 1 otherwise; an image library that
    rejects a missing input file and otherwise succeeds; a directory
    listing read off the disk. *)
Definition lab_upscayl (bin : string) (args : list value) (d : gmap string string)
    : child * gmap string string :=
  match args with
  | [_; VStr i; _; VStr o; _; _; _; _; _; _; _; _] =>
      match d !! i with
      | Some bytes => (Closed (Some 0), <[o := "4x(" +:+ bytes +:+ ")"]> d)
      | None => (Closed (Some 1), d)
      end
  | _ => (Closed (Some 1), d)
  end.

Definition lab_read {A} (d : gmap string string) (src : string)
    (k : string -> A) : outcome A :=
  match d !! src with
  | Some bytes => Resolved (k bytes)
  | None => Rejected ("Input file is missing: " +:+ src)
  end.

Definition lab_describe (v : value) : string :=
  match v with VStr s => s | _ => "" end.

Definition lab_readdir (d : gmap string string) (dir : string) : outcome (list string) :=
  Resolved (map path.basename
              (List.filter (fun p => String.eqb (path.dirname p) dir)
                 (map fst (map_to_list d)))).

Definition lab : collaborators :=
  {| upscayl := lab_upscayl;
     inspect := fun t => "'" +:+ t +:+ "'";
     sharp_metadata := fun d src => lab_read d src (fun _ => tt);
     sharp_toBuffer := fun d src => lab_read d src (fun bytes => "srgb(" +:+ bytes +:+ ")");
     sharp_toFile := fun d buf tags opts dst =>
       Resolved ("jpeg(" +:+ buf +:+ "," +:+ Artist tags +:+ ","
                 +:+ lab_describe (ImageDescription tags) +:+ ")");
     readdir := lab_readdir |}.

(** An executor that leaves a partial png behind and exits with code 3. *)
Definition lab_crashing : collaborators :=
  {| upscayl := fun bin args d =>
       match args with
       | [_; _; _; VStr o; _; _; _; _; _; _; _; _] =>
           (Closed (Some 3), <[o := "partial"]> d)
       | _ => (Closed (Some 3), d)
       end;
     inspect := inspect lab;
     sharp_metadata := sharp_metadata lab;
     sharp_toBuffer := sharp_toBuffer lab;
     sharp_toFile := sharp_toFile lab;
     readdir := readdir lab |}.


(** A small installation to run the server on. *)
Definition demo_root : string := "/srv/app".
Definition demo_bin : string := "/opt/upscayl/resources/bin/upscayl-bin".
Definition demo_disk : gmap string string :=
  {[ "/srv/app/input/a.png" := "A";
     "/srv/app/input/a.webp" := "W";
     "/srv/app/input/b.JPG" := "B";
     "/srv/app/input/notes.txt" := "N";
     "/srv/app/output/old.jpg" := "O";
     demo_bin := "ELF" ]}.

(** The globals at start-up (the default executable is not on this disk),
    and after the executable path has been configured. *)
Definition demo_unconfigured : state := boot demo_disk.
Definition demo_configured : state := with_bin (VStr demo_bin) (boot demo_disk).

Definition demo_batch : value :=
  VObj [("filename", VStr "all"); ("settings", VObj [("upscale", VBool false)])].
Definition demo_single : value :=
  VObj [("filename", VStr "notes.txt"); ("settings", VObj [("upscale", VBool false)])].

Definition with_upscale : value := VObj [("upscale", VBool true)].
Definition without_upscale : value := VObj [("upscale", VBool false)].
Definition with_model : value :=
  VObj [("upscale", VBool true); ("model", VStr "realesrgan-x4plus")].

(** The same installation with an input directory that cannot be read. *)
Definition lab_unreadable : collaborators :=
  {| upscayl := upscayl lab;
     inspect := inspect lab;
     sharp_metadata := sharp_metadata lab;
     sharp_toBuffer := sharp_toBuffer lab;
     sharp_toFile := sharp_toFile lab;
     readdir := fun _ dir =>
       Rejected ("ENOENT: no such file or directory, scandir '" +:+ dir +:+ "'") |}.

(** An output directory with a link to a file that is gone. *)
Definition lab_dangling : collaborators :=
  {| upscayl := upscayl lab;
     inspect := inspect lab;
     sharp_metadata := sharp_metadata lab;
     sharp_toBuffer := sharp_toBuffer lab;
     sharp_toFile := sharp_toFile lab;
     readdir := fun _ _ => Resolved ["old.jpg"; "link.jpg"] |}.

(** [demo_root] and [demo_bin] by their segments. *)
Definition demo_segs : list (list ascii) := [path.chars "srv"; path.chars "app"].
Definition demo_bin_segs : list (list ascii) :=
  [path.chars "opt"; path.chars "upscayl"; path.chars "resources"].

(** Two uploads of the same name as multer has stored them, and one it has
    not stored. *)
Definition demo_uploads : list upload_file :=
  [ {| file_path := "/srv/app/uploads/3f2a"; originalname := "cat.png" |};
    {| file_path := "/srv/app/uploads/9c1d"; originalname := "cat.png" |} ].
Definition demo_lost_upload : upload_file :=
  {| file_path := "/srv/app/uploads/77e0"; originalname := "dog.png" |}.
Definition demo_uploaded : state :=
  boot (<["/srv/app/uploads/3f2a" := "first"]>
          (<["/srv/app/uploads/9c1d" := "second"]> demo_disk)).

(** A page right after a completion, its reset still pending; a failed
    run during which that reset fires; and the page after it. *)
Definition demo_page_completed : page :=
  {| progressHidden := false; statusText := "Completed a.png"; statusColor := EmptyString;
     barWidth := "100%"; galleryLoads := 2; pendingResets := 1 |}.
Definition demo_happenings : list happening :=
  [Arrives (EvStart (VStr "ghost.png"));
   Arrives (EvStep (VStr "ghost.png") "Optimizing & Tagging...");
   Fires;
   Arrives (EvError (VStr "ghost.png") "Input file is missing: /srv/app/input/ghost.png")].
Definition demo_page_failed : page :=
  {| progressHidden := false;
     statusText := "Error: Input file is missing: /srv/app/input/ghost.png";
     statusColor := "#ef4444";
     barWidth := "0%"; galleryLoads := 2; pendingResets := 0 |}.

(** * Verification *)

Local Arguments path.join : simpl never.
Local Arguments path.parse_name : simpl never.
Local Arguments path.basename : simpl never.
Local Arguments path.dirname : simpl never.
Local Arguments String.append : simpl never.
Local Arguments pretty : simpl never.
Local Arguments warning_msg : simpl never.

(** ** States and traces *)

Lemma since_app s s' t : trace s' = (trace s ++ t)%list -> since s s' = t.
Proof. intros H. unfold since. rewrite H. apply drop_app_length. Qed.

Lemma since_advance s t d : since s (advance s t d) = t.
Proof. by apply since_app. Qed.

Lemma advance_advance s t d t' d' :
  advance (advance s t d) t' d' = advance s (t ++ t') d'.
Proof. unfold advance; simpl. by rewrite app_assoc. Qed.

Lemma record_advance e s : record e s = advance s [e] (fs s).
Proof. reflexivity. Qed.

Lemma events_app t1 t2 : events (t1 ++ t2) = (events t1 ++ events t2)%list.
Proof. unfold events. apply omap_app. Qed.

Lemma events_cleanup tmp inp d : events (cleanup tmp inp d) = [].
Proof.
  unfold cleanup, unlink_of. rewrite events_app.
  by destruct (on_disk (VStr tmp) d), (on_disk (VStr inp) (delete tmp d)).
Qed.

Lemma cleanup_unlinks tmp inp d : Forall is_unlink (cleanup tmp inp d).
Proof.
  unfold cleanup, unlink_of. apply Forall_app.
  split; [destruct (on_disk (VStr tmp) d) | destruct (on_disk (VStr inp) (delete tmp d))];
    repeat constructor; unfold is_unlink; eauto.
Qed.

Ltac unfold_js :=
  unfold processImage, processImage_try, upscaleStage, sharpStage, isUpscaylAvailable,
    spawn, sharp_metadata_, sharp_toBuffer_, sharp_toFile_, readdirSync,
    path_join, path_parse_name, path_dirname, validateString, js_get, destructure,
    array_join, existsSync, unlinkSync, respond, emit, when, await,
    get, modify, try_catch, bind, ret, throw in *.

Ltac same_state :=
  unfold advance, record, with_fs, cleanup, unlink_of, on_disk; simpl;
  rewrite <- ?app_assoc; simpl; try reflexivity.

Ltac normal_state :=
  rewrite ?record_advance, ?advance_advance in *; simpl fs in *;
  simpl UPSCAYL_BIN in *; simpl MODELS_PATH in *;
  rewrite ?since_advance in *.

(** ** Strings and file names *)

Local Arguments Ascii.eqb : simpl never.

Lemma chars_append a b : path.chars (a +:+ b) = (path.chars a ++ path.chars b)%list.
Proof. induction a as [|c a IH]; simpl; [reflexivity|]. unfold path.chars in *. simpl. by rewrite IH. Qed.

Lemma dropSlashes_plain l :
  existsb (Ascii.eqb path.slash) l = false -> path.dropSlashes l = l.
Proof.
  destruct l as [|c l]; simpl; [reflexivity|].
  rewrite (Ascii.eqb_sym c). destruct (Ascii.eqb path.slash c); simpl; [discriminate|reflexivity].
Qed.

Lemma takeSegment_plain l :
  existsb (Ascii.eqb path.slash) l = false -> path.takeSegment l = l.
Proof.
  induction l as [|c l IH]; simpl; [reflexivity|].
  rewrite (Ascii.eqb_sym c). destruct (Ascii.eqb path.slash c); simpl; [discriminate|].
  intros H. by rewrite IH.
Qed.

Lemma lastDot_none l i found :
  existsb (Ascii.eqb path.dot) l = false -> path.lastDot l i found = found.
Proof.
  revert i found. induction l as [|c l IH]; intros i found; simpl; [reflexivity|].
  rewrite (Ascii.eqb_sym c). destruct (Ascii.eqb path.dot c); simpl; [discriminate|].
  intros H. by apply IH.
Qed.

Lemma lastDot_app S E i found :
  existsb (Ascii.eqb path.dot) E = false ->
  path.lastDot (S ++ path.dot :: E) i found = Some (i + length S)%nat.
Proof.
  intros HE. revert i found. induction S as [|c S IH]; intros i found; simpl.
  - rewrite lastDot_none by done. f_equal. lia.
  - rewrite IH. f_equal. lia.
Qed.

Lemma existsb_rev {A} (p : A -> bool) l : existsb p (rev l) = existsb p l.
Proof.
  induction l as [|x l IH]; simpl; [reflexivity|].
  rewrite existsb_app, IH. simpl. rewrite orb_false_r. apply orb_comm.
Qed.

Lemma chars_str l : path.chars (path.str l) = l.
Proof. apply list_ascii_of_string_of_list_ascii. Qed.

Lemma str_chars s : path.str (path.chars s) = s.
Proof. apply string_of_list_ascii_of_string. Qed.

Lemma rootedDotDot_plain l :
  existsb (Ascii.eqb path.slash) l = false -> path.rootedDotDot l = false.
Proof.
  destruct l as [|c0 [|c1 [|c2 rest]]]; try reflexivity. simpl.
  rewrite (Ascii.eqb_sym c0). by destruct (Ascii.eqb path.slash c0).
Qed.

(** The stem of [stem.ext] is [stem], for a plain stem and extension. *)
Lemma parse_name_of_stem_ext stem ext :
  stem <> "" -> ext <> "" ->
  mentions path.slash stem = false ->
  mentions path.slash ext = false ->
  mentions path.dot ext = false ->
  path.parse_name (stem +:+ "." +:+ ext) = stem.
Proof.
  unfold mentions. intros Hs He Hss Hes Hed.
  set (S := path.chars stem) in *. set (E := path.chars ext) in *.
  assert (HS : S <> []).
  { intros H. apply Hs. rewrite <- (str_chars stem). fold S. by rewrite H. }
  assert (HE : E <> []).
  { intros H. apply He. rewrite <- (str_chars ext). fold E. by rewrite H. }
  assert (Hc : path.chars (stem +:+ "." +:+ ext) = (S ++ path.dot :: E)%list).
  { rewrite !chars_append. reflexivity. }
  assert (Hplain : existsb (Ascii.eqb path.slash) (S ++ path.dot :: E) = false).
  { rewrite existsb_app. simpl. by rewrite Hss, Hes. }
  assert (Hbase : path.chars (path.basename (stem +:+ "." +:+ ext))
                  = (S ++ path.dot :: E)%list).
  { unfold path.basename. rewrite chars_str, Hc.
    rewrite dropSlashes_plain, takeSegment_plain by (by rewrite existsb_rev).
    apply rev_involutive. }
  unfold path.parse_name. rewrite Hc, rootedDotDot_plain by done.
  rewrite Hbase, lastDot_app by done. simpl.
  destruct (length S) as [|n] eqn:Hn.
  { destruct S; [congruence|discriminate]. }
  assert (Hdots : path.seg_eqb (S ++ path.dot :: E) [path.dot; path.dot] = false).
  { unfold path.seg_eqb. apply String.eqb_neq. intros H.
    apply (f_equal path.chars) in H. rewrite !chars_str in H.
    destruct S as [|a [|b S]]; try congruence; simpl in H.
    - injection H as _ H. destruct E; congruence.
    - injection H as _ _ H. destruct S; discriminate. }
  rewrite Hdots. rewrite <- Hn, take_app_length. apply str_chars.
Qed.

(** ** The image pattern *)

Lemma seg_eqb_eq a b : path.seg_eqb a b = true <-> a = b.
Proof.
  unfold path.seg_eqb. rewrite String.eqb_eq. split; [|by intros ->].
  intros H. apply (f_equal path.chars) in H. by rewrite !chars_str in H.
Qed.

Lemma endsWith_spec suffix s :
  endsWith suffix s = true <->
  exists pre, map lower (path.chars s) = (pre ++ path.chars suffix)%list.
Proof.
  unfold endsWith. rewrite seg_eqb_eq. split.
  - intros H.
    pose proof (take_drop (length (rev (path.chars suffix)))
                  (rev (map lower (path.chars s)))) as HR.
    rewrite H in HR. apply (f_equal (@rev ascii)) in HR.
    rewrite rev_app_distr, !rev_involutive in HR. eauto.
  - intros [pre ->]. rewrite rev_app_distr. apply take_app_length.
Qed.

Lemma lower_dot c : lower c = "."%char -> c = "."%char.
Proof.
  destruct c as [[] [] [] [] [] [] [] []]; vm_compute; intros H; first [reflexivity | discriminate H].
Qed.

Lemma str_app a b : path.str (a ++ b) = path.str a +:+ path.str b.
Proof. induction a as [|c a IH]; simpl; [reflexivity|]. unfold path.str in *. simpl. by rewrite IH. Qed.

Lemma endsWith_extension ext s :
  endsWith ("." +:+ ext) s = true <->
  exists stem e, s = stem +:+ "." +:+ e /\ lowercase e = ext.
Proof.
  rewrite endsWith_spec. split.
  - intros [pre H]. rewrite chars_append in H.
    change (path.chars ".") with ["."%char] in H.
    apply fmap_app_inv in H as (A & B & -> & HB & Hs).
    destruct B as [|c E]; [discriminate|]. injection HB as Hc HE.
    symmetry in Hc. apply lower_dot in Hc. subst c.
    exists (path.str A), (path.str E). split.
    + rewrite <- (str_chars s), Hs. apply (str_app A ("."%char :: E)).
    + unfold lowercase. rewrite chars_str, <- (str_chars ext), HE. reflexivity.
  - intros (stem & e & -> & He). exists (map lower (path.chars stem)).
    rewrite !chars_append, !map_app. f_equal.
    change (path.chars ".") with ["."%char]. simpl. f_equal.
    unfold lowercase in He. rewrite <- He, chars_str. reflexivity.
Qed.

Lemma is_image_spec f : is_image f = true <-> has_image_extension f.
Proof.
  unfold is_image, has_image_extension.
  rewrite !orb_true_iff.
  change ".png" with ("." +:+ "png"). change ".jpg" with ("." +:+ "jpg").
  change ".jpeg" with ("." +:+ "jpeg"). change ".webp" with ("." +:+ "webp").
  rewrite !endsWith_extension.
  split.
  - intros [[[H|H]|H]|H]; destruct H as (stem & e & -> & He);
      exists stem, e; (split; [reflexivity|]); rewrite He; simpl; auto.
  - intros (stem & e & -> & He). simpl in He.
    destruct He as [He|[He|[He|[He|[]]]]]; eauto 10.
Qed.

(** ** Paths under an absolute directory *)

Lemma plain_segment_inv seg :
  plain_segment seg = true ->
  path.seg_eqb seg [] = false /\ path.seg_eqb seg [path.dot] = false /\
  path.seg_eqb seg [path.dot; path.dot] = false /\
  existsb (Ascii.eqb path.slash) seg = false.
Proof.
  unfold plain_segment. rewrite !andb_true_iff, !negb_true_iff. tauto.
Qed.

Lemma split_nonempty l : path.split l <> [].
Proof.
  destruct l as [|c l]; simpl; [discriminate|].
  destruct (Ascii.eqb c path.slash); [discriminate|].
  destruct (path.split l); discriminate.
Qed.

Lemma split_plain l :
  existsb (Ascii.eqb path.slash) l = false -> path.split l = [l].
Proof.
  induction l as [|c l IH]; simpl; [reflexivity|].
  rewrite (Ascii.eqb_sym c). destruct (Ascii.eqb path.slash c); simpl; [discriminate|].
  intros H. by rewrite IH.
Qed.

Lemma split_app_slash a b :
  path.split (a ++ path.slash :: b) = (path.split a ++ path.split b)%list.
Proof.
  induction a as [|c a IH]; simpl.
  - rewrite ?Ascii.eqb_refl. reflexivity.
  - destruct (Ascii.eqb c path.slash); [by rewrite IH|].
    rewrite IH. pose proof (split_nonempty a) as Hne.
    destruct (path.split a); [congruence|reflexivity].
Qed.

Lemma split_unsplit segs :
  segs <> [] ->
  Forall (fun seg => plain_segment seg = true) segs ->
  path.split (path.unsplit segs) = segs.
Proof.
  intros Hne Hall. induction Hall as [|seg rest Hseg Hrest IH]; [congruence|].
  apply plain_segment_inv in Hseg as (_ & _ & _ & Hslash).
  destruct rest as [|seg' rest'].
  - simpl. by apply split_plain.
  - change (path.unsplit (seg :: seg' :: rest'))
      with (seg ++ path.slash :: path.unsplit (seg' :: rest'))%list.
    rewrite split_app_slash, split_plain, IH by done. reflexivity.
Qed.

Lemma resolve_plain allow kept segs :
  Forall (fun seg => plain_segment seg = true) segs ->
  path.resolve allow kept segs = (rev kept ++ segs)%list.
Proof.
  intros Hall. revert kept.
  induction Hall as [|seg rest Hseg Hrest IH]; intros kept; simpl.
  - by rewrite app_nil_r.
  - apply plain_segment_inv in Hseg as (-> & -> & -> & _). simpl.
    rewrite IH. simpl. by rewrite <- app_assoc.
Qed.

Lemma unsplit_nonempty segs :
  segs <> [] ->
  Forall (fun seg => plain_segment seg = true) segs ->
  path.unsplit segs <> [].
Proof.
  intros Hne Hall. destruct Hall as [|seg rest Hseg Hrest]; [congruence|].
  apply plain_segment_inv in Hseg as (Hempty & _).
  assert (seg <> []) by (intros ->; discriminate).
  destruct seg; [congruence|]. destruct rest; discriminate.
Qed.

Lemma unsplit_snoc segs n :
  segs <> [] ->
  path.unsplit (segs ++ [n]) = (path.unsplit segs ++ path.slash :: n)%list.
Proof.
  induction segs as [|seg rest IH]; [congruence|]. intros _.
  destruct rest as [|seg' rest']; [reflexivity|].
  change (path.unsplit ((seg :: seg' :: rest') ++ [n]))
    with (seg ++ path.slash :: path.unsplit ((seg' :: rest') ++ [n]))%list.
  rewrite IH by discriminate.
  change (path.unsplit (seg :: seg' :: rest'))
    with (seg ++ path.slash :: path.unsplit (seg' :: rest'))%list.
  by rewrite <- app_assoc.
Qed.

Lemma last_not_slash (l : list ascii) :
  l <> [] -> existsb (Ascii.eqb path.slash) l = false -> path.endsWithSlash l = false.
Proof.
  intros Hne Hno. unfold path.endsWithSlash, path.isAbsolute.
  destruct (rev l) as [|c r] eqn:Hr; [reflexivity|].
  rewrite Ascii.eqb_sym. 
  assert (Hin : existsb (Ascii.eqb path.slash) (rev l) = false) by by rewrite existsb_rev.
  rewrite Hr in Hin. simpl in Hin. by apply orb_false_elim in Hin as [-> _].
Qed.

(** Joining a plain name onto an absolute, normalised directory appends it. *)
Lemma join_absolute segs n :
  Forall (fun seg => plain_segment seg = true) segs ->
  plain_segment n = true ->
  path.join (absolute segs) (path.str n) = absolute (segs ++ [n]).
Proof.
  intros Hsegs Hn. pose proof (plain_segment_inv _ Hn) as (Hempty & _ & _ & Hslash).
  assert (Hne : n <> []) by (intros ->; discriminate).
  unfold path.join, absolute.
  assert (E1 : String.eqb (path.str (path.slash :: path.unsplit segs)) "" = false)
    by reflexivity.
  assert (E2 : String.eqb (path.str n) "" = false).
  { destruct n; [congruence|reflexivity]. }
  rewrite E1, E2. unfold path.normalize.
  rewrite !chars_append, !chars_str.
  change (path.chars "/") with [path.slash].
  set (l := ((path.slash :: path.unsplit segs) ++ [path.slash] ++ n)%list).
  assert (Hl : l = (path.slash :: (path.unsplit segs ++ path.slash :: n))%list).
  { subst l. reflexivity. }
  rewrite Hl. cbn [path.isAbsolute]. rewrite Ascii.eqb_refl. cbn [negb].
  assert (Htrail : path.endsWithSlash
                     (path.slash :: (path.unsplit segs ++ path.slash :: n)) = false).
  { unfold path.endsWithSlash, path.isAbsolute.
    change (path.slash :: (path.unsplit segs ++ path.slash :: n))%list
      with ((path.slash :: path.unsplit segs) ++ path.slash :: n)%list.
    rewrite rev_app_distr. simpl.
    pose proof (last_not_slash n Hne Hslash) as Hlast.
    unfold path.endsWithSlash, path.isAbsolute in Hlast.
    destruct (rev n) as [|c r] eqn:Hr.
    - apply (f_equal (@rev ascii)) in Hr. rewrite rev_involutive in Hr. simpl in Hr. congruence.
    - simpl. exact Hlast. }
  rewrite Htrail.
  assert (Hres : path.resolve false []
                   (path.split (path.slash :: (path.unsplit segs ++ path.slash :: n)))
                 = (segs ++ [n])%list).
  { cbn [path.split]. rewrite Ascii.eqb_refl, split_app_slash, (split_plain n) by done.
    destruct segs as [|seg rest].
    - simpl. apply plain_segment_inv in Hn as (-> & -> & -> & _). reflexivity.
    - rewrite split_unsplit by done.
      change (path.resolve false [] ([] :: (seg :: rest) ++ [n]))
        with (path.resolve false [] ((seg :: rest) ++ [n])).
      rewrite resolve_plain; [reflexivity|]. apply Forall_app. split; [done|]. by constructor. }
  rewrite Hres.
  destruct (path.unsplit (segs ++ [n])) eqn:Hu; [|reflexivity].
  exfalso. apply (unsplit_nonempty (segs ++ [n])); [|apply Forall_app; split; [done|by constructor]|done].
  destruct segs; discriminate.
Qed.

Lemma absolute_inj A B :
  A <> [] -> B <> [] ->
  Forall (fun seg => plain_segment seg = true) A ->
  Forall (fun seg => plain_segment seg = true) B ->
  absolute A = absolute B -> A = B.
Proof.
  intros HA HB PA PB H. unfold absolute in H.
  apply (f_equal path.chars) in H. rewrite !chars_str in H. injection H as H.
  apply (f_equal path.split) in H. by rewrite !split_unsplit in H.
Qed.

Lemma basename_plain f :
  existsb (Ascii.eqb path.slash) (path.chars f) = false ->
  path.chars (path.basename f) = path.chars f.
Proof.
  intros H. unfold path.basename. rewrite chars_str.
  rewrite dropSlashes_plain, takeSegment_plain by (by rewrite existsb_rev).
  apply rev_involutive.
Qed.

Lemma existsb_take {A} (p : A -> bool) n l :
  existsb p l = false -> existsb p (take n l) = false.
Proof.
  revert n. induction l as [|x l IH]; intros [|n]; simpl; try reflexivity.
  intros H. apply orb_false_elim in H as [-> H]. simpl. by apply IH.
Qed.

Lemma parse_name_plain f :
  existsb (Ascii.eqb path.slash) (path.chars f) = false ->
  existsb (Ascii.eqb path.slash) (path.chars (path.parse_name f)) = false.
Proof.
  intros H. unfold path.parse_name. rewrite rootedDotDot_plain, basename_plain by done.
  destruct (path.lastDot (path.chars f) 0 None) as [[|i]|]; rewrite ?chars_str; try done.
  destruct (path.seg_eqb _ _); rewrite chars_str; [done|]. by apply existsb_take.
Qed.

(** The output name [<stem>.jpg] of a plain name is a plain name. *)
Lemma output_name_plain f :
  plain_name f = true ->
  plain_segment (path.chars (path.parse_name f +:+ ".jpg")) = true.
Proof.
  intros Hf. apply plain_segment_inv in Hf as (_ & _ & _ & Hslash).
  pose proof (parse_name_plain f Hslash) as Hstem.
  rewrite chars_append. set (stem := path.chars (path.parse_name f)) in *.
  unfold plain_segment.
  assert (Hlen : forall l, (length l < 4)%nat ->
                        path.seg_eqb (stem ++ path.chars ".jpg") l = false).
  { intros l Hl. apply not_true_iff_false. rewrite seg_eqb_eq. intros E.
    apply (f_equal length) in E. rewrite length_app in E. simpl in E. lia. }
  rewrite !Hlen by (simpl; lia). rewrite existsb_app, Hstem. reflexivity.
Qed.

Section PlainNames.

Variable segs : list (list ascii).
Hypothesis plain_segs : Forall (fun seg => plain_segment seg = true) segs.

Lemma DIRS_absolute :
  input (DIRS (absolute segs)) = absolute (segs ++ [path.chars "input"]) /\
  output (DIRS (absolute segs)) = absolute (segs ++ [path.chars "output"]) /\
  temp (DIRS (absolute segs)) = absolute (segs ++ [path.chars "temp"]).
Proof.
  unfold DIRS; simpl. repeat split.
  - by rewrite <- join_absolute.
  - by rewrite <- join_absolute.
  - by rewrite <- join_absolute.
Qed.

(** Under an absolute, normalised [__dirname], the final output path of a
    plain file name is neither its input path nor its intermediate path. *)
Lemma plain_name_paths_distinct f :
  plain_name f = true ->
  finalOutputPath (absolute segs) f <> inputPath (absolute segs) f /\
  finalOutputPath (absolute segs) f <> tempUpscaledPath (absolute segs) f.
Proof.
  intros Hf. pose proof (output_name_plain f Hf) as Hout.
  destruct DIRS_absolute as (Ei & Eo & Et).
  unfold finalOutputPath, inputPath, tempUpscaledPath. rewrite Ei, Eo, Et.
  rewrite <- (str_chars f) at 2 4.
  rewrite <- (str_chars (path.parse_name f +:+ ".jpg")).
  assert (Pi : Forall (fun seg => plain_segment seg = true) (segs ++ [path.chars "input"]))
    by (apply Forall_app; split; [done|by constructor]).
  assert (Po : Forall (fun seg => plain_segment seg = true) (segs ++ [path.chars "output"]))
    by (apply Forall_app; split; [done|by constructor]).
  assert (Pt : Forall (fun seg => plain_segment seg = true) (segs ++ [path.chars "temp"]))
    by (apply Forall_app; split; [done|by constructor]).
  rewrite !join_absolute by done.
  split; intros E; apply absolute_inj in E;
    try (apply Forall_app; split; [done|by constructor]);
    try (intros Hnil; apply app_eq_nil in Hnil as [_ Hnil]; discriminate).
  - apply app_inj_tail in E as [E _]. apply app_inj_tail in E as [_ E]. discriminate.
  - apply app_inj_tail in E as [E _]. apply app_inj_tail in E as [_ E]. discriminate.
Qed.

End PlainNames.

(** ** The stages run as the relations say *)

Section Runs.

Variable __dirname : string.
Variable X : collaborators.

Local Arguments spawn_check : simpl never.

(** The stage is followed without looking into the argument vector. *)
Opaque joined js_or.

Lemma upscaleStage_run f settings inp tmp s :
  upscale_run X f settings inp tmp s
    (upscaleStage X (VStr f) settings inp tmp s).1
    (upscaleStage X (VStr f) settings inp tmp s).2.
Proof.
  destruct (truthy (field settings "upscale")) eqn:Hup.
  - assert (Hget : forall k, js_get settings k = ret (field settings k)).
    { intros k. destruct settings; simpl in Hup; try discriminate; reflexivity. }
    unfold upscaleStage. rewrite !Hget. clear Hget.
    unfold_js. simpl. rewrite Hup.
    destruct (on_disk (UPSCAYL_BIN s) (fs s)) eqn:Hdisk; simpl.
    + destruct (UPSCAYL_BIN s) as [| | | |bin| |] eqn:Hbin; simpl in Hdisk; try discriminate.
      apply bool_decide_eq_true in Hdisk.
      fold (argv inp tmp (MODELS_PATH s) settings).
      destruct (joined " " (argv inp tmp (MODELS_PATH s) settings)) as [line|] eqn:Hjoin;
        simpl.
      2: { eapply eq_rect; [eapply (upscale_unprintable X); eauto|]. same_state. }
      assert (Hline : joined " " (argv inp tmp (MODELS_PATH s) settings) <> None)
        by (rewrite Hjoin; discriminate).
      rewrite ?Hbin. simpl.
      destruct (spawn_check X bin (argv inp tmp (MODELS_PATH s) settings)) as [e|] eqn:Hcheck;
        simpl.
      { eapply eq_rect; [eapply (upscale_invalid X); eauto|]. same_state. }
      destruct (upscayl X bin _ (fs s)) as [[code| |msg] disk] eqn:Hrun; simpl.
      * destruct (decide (code = Some 0)) as [->|Hc].
        -- simpl. eapply eq_rect; [eapply (upscale_ok X); eauto|]. same_state.
        -- assert (Hthrow : forall A (a b : A), match code with Some 0 => a | _ => b end = b).
           { intros. destruct code as [[]|]; congruence. }
           rewrite Hthrow. simpl.
           eapply eq_rect; [eapply (upscale_failed X); eauto|]. same_state.
      * eapply eq_rect; [eapply (upscale_unstartable X); eauto|]. same_state.
      * eapply eq_rect; [eapply (upscale_refused X); eauto|]. same_state.
    + destruct (to_string (UPSCAYL_BIN s)) as [text|] eqn:Htext; simpl.
      * apply upscale_skipped; auto. by rewrite Htext.
      * by apply upscale_unnamed.
  - destruct settings; simpl in *; try discriminate;
      unfold_js; simpl; rewrite ?Hup; simpl;
      first [ apply upscale_unreadable; auto | by apply upscale_off ].
Qed.

Transparent joined js_or.

Lemma guarded_unlink p s :
  (hasIt <- existsSync (VStr p) ;; when hasIt (unlinkSync p))%js s
  = (Ok tt, advance s (unlink_of p (fs s)) (delete p (fs s))).
Proof.
  unfold unlink_of, on_disk. unfold_js. simpl.
  destruct (fs s !! p) eqn:Hp.
  - rewrite bool_decide_true by eauto. simpl. rewrite Hp. reflexivity.
  - rewrite bool_decide_false by (intros [? ?]; congruence). simpl.
    rewrite delete_id by done. unfold advance. rewrite app_nil_r. by destruct s.
Qed.

Lemma guarded_unlink_logged p f s :
  (hasIt <- existsSync (VStr p) ;;
   when hasIt (unlinkSync p ;; template [VStr f]))%js s
  = (Ok tt, advance s (unlink_of p (fs s)) (delete p (fs s))).
Proof.
  rewrite <- guarded_unlink. unfold_js. simpl.
  destruct (bool_decide (is_Some (fs s !! p))); simpl; [|reflexivity].
  by destruct (fs s !! p).
Qed.

Lemma sharpStage_run f inp tmp final cur s :
  sharp_run X f inp tmp final cur s
    (sharpStage X (VStr f) inp tmp final cur s).1
    (sharpStage X (VStr f) inp tmp final cur s).2.
Proof.
  unfold sharpStage.
  set (tail := (hasTemp <- existsSync (VStr tmp) ;; _)%js).
  assert (Htail : forall s0, tail s0 =
            (Ok tt, advance s0 (cleanup tmp inp (fs s0)
                       ++ [Emit (EvComplete (VStr f) ("/output/" +:+ path.basename final))])
                      (delete inp (delete tmp (fs s0))))).
  { intros s0. subst tail.
    pose proof (guarded_unlink tmp s0) as H1. unfold bind in H1 |- *.
    destruct (existsSync (VStr tmp) s0) as [[b|e|] s1] eqn:E1; try discriminate.
    destruct (when b (unlinkSync tmp) s1) as [[[]|e|] s2] eqn:E2; try discriminate.
    injection H1 as ->.
    pose proof (guarded_unlink_logged inp f
                  (advance s0 (unlink_of tmp (fs s0)) (delete tmp (fs s0)))) as H2.
    unfold bind in H2.
    destruct (existsSync (VStr inp) _) as [[b'|e'|] s3] eqn:E3; try discriminate.
    destruct (when b' _ s3) as [[[]|e'|] s4] eqn:E4; try discriminate.
    injection H2 as ->.
    unfold emit, modify. simpl. unfold ret. f_equal. same_state. }
  clearbody tail.
  unfold_js. simpl.
  destruct (sharp_metadata X (fs s) cur) as [u|msg] eqn:Hm; simpl.
  2: { eapply eq_rect; [eapply (sharp_no_metadata X); eauto|]. same_state. }
  destruct (sharp_toBuffer X (fs s) cur) as [buf|msg] eqn:Hb; simpl.
  2: { eapply eq_rect; [eapply (sharp_no_buffer X); eauto|]. same_state. }
  fold (tags_of (VStr f)). fold jpeg_settings.
  destruct (sharp_toFile X (fs s) buf _ _ final) as [bytes|msg] eqn:Hf; simpl.
  2: { eapply eq_rect; [eapply (sharp_no_file X); eauto|]. same_state. }
  rewrite Htail. simpl.
  eapply eq_rect; [eapply (sharp_done X); eauto|]. same_state.
Qed.

Lemma processImage_try_run f settings inp tmp final s :
  try_run X f settings inp tmp final s
    (processImage_try X (VStr f) settings inp tmp final s).1
    (processImage_try X (VStr f) settings inp tmp final s).2.
Proof.
  unfold processImage_try, bind.
  pose proof (upscaleStage_run f settings inp tmp s) as Hu.
  destruct (upscaleStage X (VStr f) settings inp tmp s) as [[cur|e|] s1]; simpl in *.
  - eapply try_sharp; [exact Hu|]. apply sharpStage_run.
  - by apply try_upscale_threw.
  - by apply try_upscale_unsettled.
Qed.

(** On a string, [processImage] emits [start], runs the [try] block, and
    turns what the block throws into an [error] event; where the block
    does not get further, neither does [processImage]. *)
Lemma processImage_cases f settings s :
  exists r s1,
    attempt __dirname X f settings s = (r, s1) /\
    try_run X f settings (inputPath __dirname f) (tempUpscaledPath __dirname f)
      (finalOutputPath __dirname f) (record (Emit (EvStart (VStr f))) s) r s1 /\
    processImage __dirname X (VStr f) settings s =
      match r with
      | Ok _ => (Ok tt, s1)
      | Throw e => (Ok tt, record (Emit (EvError (VStr f) (message e))) s1)
      | Unsettled => (Unsettled, s1)
      end.
Proof.
  unfold attempt.
  pose proof (processImage_try_run f settings (inputPath __dirname f)
                (tempUpscaledPath __dirname f) (finalOutputPath __dirname f)
                (record (Emit (EvStart (VStr f))) s)) as Hrun.
  unfold processImage, path_join, path_parse_name, validateString, try_catch, emit,
    modify, bind, ret. simpl.
  unfold inputPath, tempUpscaledPath, finalOutputPath in *.
  destruct (processImage_try _ _ _ _ _ _ _) as [r s1]. simpl in *.
  exists r, s1. split; [reflexivity|]. split; [exact Hrun|]. by destruct r as [[]|e|].
Qed.

End Runs.

(** ** Runs of [processImage] *)

Ltac run_cases __dirname X f settings s :=
  let r := fresh "r" in
  let s1 := fresh "s1" in
  let Hrun := fresh "Hrun" in
  let Heq := fresh "Heq" in
  let Hatt := fresh "Hatt" in
  let Hu := fresh "Hu" in
  let Hs := fresh "Hs" in
  destruct (processImage_cases __dirname X f settings s) as (r & s1 & Hatt & Hrun & Heq);
  rewrite ?Heq, ?Hatt in *; clear Heq Hatt;
  inversion Hrun as [? ? Hu | ? Hu | ? ? ? ? Hu Hs]; subst; clear Hrun;
  [ inversion Hu; subst; clear Hu
  | inversion Hu; subst; clear Hu
  | inversion Hu; subst; clear Hu; inversion Hs; subst; clear Hs ];
  cbn [fst snd] in *; normal_state.

Ltac list_events :=
  rewrite ?events_app, ?events_cleanup; simpl.

(** Below [2^53] the text of a number is its decimal notation. *)
Lemma number_text_small n : 0 <= n < 2 ^ 53 -> number_text n = pretty n.
Proof.
  intros [Hlo Hhi]. unfold number_text, magnitude_text, to_double.
  rewrite (proj2 (Z.ltb_ge n 0)) by lia.
  assert (Hbits : Z.log2 n + 1 <= 53).
  { destruct (decide (n = 0)) as [->|Hn]; [by vm_compute|].
    assert (Z.log2 n < 53) by (apply Z.log2_lt_pow2; lia). lia. }
  rewrite (proj2 (Z.leb_le _ _) Hbits).
  rewrite (proj2 (Z.leb_gt _ _)) by (assert (2 ^ 53 < 2 ^ 1024) by (by vm_compute); lia).
  by rewrite (proj2 (Z.leb_le n (2 ^ 53))) by lia.
Qed.

Section Claims.
Variable __dirname : string.
Variable X : collaborators.

(** The events of a run: complete when the run returns; [start] and the
    [Upscaling...] step, and a child asked for last, when it does not. *)
Lemma run_protocol f settings s :
  let done := processImage __dirname X (VStr f) settings s in
  (done.1 = Ok tt /\
   exists steps term,
     events (since s done.2) = (EvStart (VStr f) :: steps ++ [term])%list /\
     Forall (is_step_of (VStr f)) steps /\
     is_terminal_of (VStr f) term) \/
  (done.1 = Unsettled /\
   events (since s done.2) = [EvStart (VStr f); EvStep (VStr f) "Upscaling..."] /\
   exists bin args, last (since s done.2) = Some (Spawn bin args)).
Proof.
  cbv zeta.
  run_cases __dirname X f settings s; list_events;
  first
    [ right; split; [reflexivity|]; split; [reflexivity|]; eexists _, _; reflexivity
    | left; split; [reflexivity|];
      match goal with
      | |- context [ _ :: ?l = _ :: _ ++ _ ] =>
          exists (removelast l), (List.last l (EvStart VNull))
      end; simpl;
      (split; [reflexivity|]); (split; [repeat constructor; unfold is_step_of; eauto|]);
      unfold is_terminal_of; eauto ].
Qed.

Lemma processImage_advance f settings s :
  exists t d, (processImage __dirname X (VStr f) settings s).2 = advance s t d.
Proof. run_cases __dirname X f settings s; eauto. Qed.



(** On anything but a string, [processImage] throws before its first
    effect. *)
Lemma processImage_not_a_string fileName settings s :
  (forall f, fileName <> VStr f) ->
  processImage __dirname X fileName settings s
  = (Throw (InvalidArgType "path" fileName), s).
Proof. intros Hv. destruct fileName; try reflexivity. by destruct (Hv s0). Qed.

Lemma last_error_not_successful t f msg :
  ~ successful (t ++ [Emit (EvError f msg)]).
Proof. intros (f' & out & H). rewrite last_snoc in H. discriminate. Qed.

Lemma last_spawn_not_successful t bin args :
  ~ successful (t ++ [Spawn bin args]).
Proof. intros (f' & out & H). rewrite last_snoc in H. discriminate. Qed.

Ltac not_successful H :=
  exfalso; rewrite ?app_assoc in H;
  first [ exact (last_error_not_successful _ _ _ H)
        | exact (last_spawn_not_successful _ _ _ H)
        | exact (last_spawn_not_successful [_; _] _ _ H) ].

(** A successful run wrote the final file, then cleaned up, and did no
    unlink before the write. *)
Lemma successful_run f settings s :
  let s' := (processImage __dirname X (VStr f) settings s).2 in
  successful (since s s') ->
  exists d buf bytes before,
    sharp_toFile X d buf (tags_of (VStr f)) jpeg_settings (finalOutputPath __dirname f)
      = Resolved bytes /\
    fs s' = delete (inputPath __dirname f)
              (delete (tempUpscaledPath __dirname f) (<[finalOutputPath __dirname f := bytes]> d)) /\
    since s s' =
      (before ++ ToFile (finalOutputPath __dirname f) (tags_of (VStr f)) jpeg_settings
         :: cleanup (tempUpscaledPath __dirname f) (inputPath __dirname f)
              (<[finalOutputPath __dirname f := bytes]> d)
         ++ [Emit (EvComplete (VStr f)
                     ("/output/" +:+ path.basename (finalOutputPath __dirname f)))])%list /\
    Forall (fun e => ~ is_unlink e) before.
Proof.
  cbv zeta. intros Hok.
  run_cases __dirname X f settings s; try (not_successful Hok);
    eexists _, _, _;
    let finish :=
      (split; [eassumption|]); (split; [reflexivity|]); (split; [simpl; reflexivity|]);
      repeat constructor; intros [p Hp]; discriminate in
    first [ solve [eexists [_; _; _; _]; finish]
          | solve [eexists [_; _; _; _; _]; finish]
          | solve [eexists [_; _; _; _; _; _]; finish] ].
Qed.

(** The disk after a successful run whose final output path is not one of
    the paths the cleanup unlinks. *)
Lemma successful_run_disk f settings s :
  let s' := (processImage __dirname X (VStr f) settings s).2 in
  successful (since s s') ->
  finalOutputPath __dirname f <> inputPath __dirname f ->
  finalOutputPath __dirname f <> tempUpscaledPath __dirname f ->
  fs s' !! inputPath __dirname f = None /\
  is_Some (fs s' !! finalOutputPath __dirname f) /\
  fs s' !! tempUpscaledPath __dirname f = None.
Proof.
  cbv zeta. intros Hok Hin Htmp.
  destruct (successful_run f settings s Hok) as (d & buf & bytes & before & _ & Hfs & _).
  rewrite Hfs. repeat split.
  - apply lookup_delete_eq.
  - rewrite !lookup_delete_ne by congruence. rewrite lookup_insert_eq. eauto.
  - destruct (decide (inputPath __dirname f = tempUpscaledPath __dirname f)) as [->|Hne].
    + apply lookup_delete_eq.
    + rewrite lookup_delete_ne by done. apply lookup_delete_eq.
Qed.

(** C3, amended. After a successful run whose final output path differs from
    its input path and its intermediate path, the input file and the
    intermediate file are gone and the final output file exists; the run
    wrote the final file and unlinked nothing before that. *)
Theorem successful_run_replaces_input f settings s :
  let s' := (processImage __dirname X (VStr f) settings s).2 in
  successful (since s s') ->
  finalOutputPath __dirname f <> inputPath __dirname f ->
  finalOutputPath __dirname f <> tempUpscaledPath __dirname f ->
  fs s' !! inputPath __dirname f = None /\
  is_Some (fs s' !! finalOutputPath __dirname f) /\
  fs s' !! tempUpscaledPath __dirname f = None /\
  exists before after,
    since s s' = (before ++ ToFile (finalOutputPath __dirname f) (tags_of (VStr f)) jpeg_settings
                    :: after)%list /\
    Forall (fun e => ~ is_unlink e) before.
Proof.
  cbv zeta. intros Hok Hin Htmp.
  destruct (successful_run_disk f settings s Hok Hin Htmp) as (Hi & Ho & Ht).
  destruct (successful_run f settings s Hok) as (d & buf & bytes & before & _ & _ & Htr & Hb).
  repeat split; eauto.
Qed.

(** C4. With upscaling requested, the executable on disk, arguments that
    [spawn] accepts and a child that ran and exited with a code other than
    0 (a nonzero number, or [null] after a signal), the run returns and is
    exactly: [start], the [Upscaling...] step, the spawn, and one [error]
    event whose message is [Upscayl exited with code ] followed by the
    code: [null], or the decimal notation of the number.  No later stage
    runs and nothing is unlinked: the disk is as the executor left it, so
    the input file is not deleted by the run and an intermediate file the
    executor produced is still there. *)
Theorem executor_failure_aborts f settings s bin code disk :
  truthy (field settings "upscale") = true ->
  UPSCAYL_BIN s = VStr bin ->
  is_Some (fs s !! bin) ->
  let args := argv (inputPath __dirname f) (tempUpscaledPath __dirname f)
                (MODELS_PATH s) settings in
  joined " " args <> None ->
  spawn_check X bin args = None ->
  upscayl X bin args (fs s) = (Closed code, disk) ->
  code <> Some 0 ->
  let s' := (processImage __dirname X (VStr f) settings s).2 in
  (processImage __dirname X (VStr f) settings s).1 = Ok tt /\
  (exists msg,
     since s s' =
       [Emit (EvStart (VStr f));
        Emit (EvStep (VStr f) "Upscaling...");
        Spawn bin args;
        Emit (EvError (VStr f) msg)] /\
     (code = None -> msg = "Upscayl exited with code null") /\
     (forall n, code = Some n -> 0 <= n < 2 ^ 53 ->
                msg = "Upscayl exited with code " +:+ pretty n)) /\
  fs s' = disk /\
  (is_Some (disk !! inputPath __dirname f) -> is_Some (fs s' !! inputPath __dirname f)) /\
  (is_Some (disk !! tempUpscaledPath __dirname f) ->
   is_Some (fs s' !! tempUpscaledPath __dirname f)).
Proof.
  cbv zeta. intros Hup Hbin Hex Hjoin Hcheck Hrun Hc.
  assert (Hon : on_disk (UPSCAYL_BIN s) (fs s) = true).
  { rewrite Hbin. simpl. by apply bool_decide_eq_true. }
  run_cases __dirname X f settings s;
    try match goal with H : _ \/ _ |- _ => destruct H; subst; discriminate end;
    try congruence;
    match goal with
    | H : UPSCAYL_BIN _ = VStr ?b |- _ => rewrite Hbin in H; injection H as <-
    end;
    try congruence;
    match goal with
    | H : upscayl _ _ _ _ = _ |- _ => rewrite Hrun in H; try discriminate H
    end;
    match goal with
    | H : (_, _) = (_, _) |- _ => injection H as <- <-
    end;
    try congruence.
  simpl. split; [reflexivity|]. split; [|auto].
  eexists. split; [reflexivity|]. split.
  - intros ->. reflexivity.
  - intros n -> Hn. simpl. by rewrite number_text_small.
Qed.

Lemma in_cleanup e tmp inp d : In e (cleanup tmp inp d) -> is_unlink e.
Proof.
  intros H. pose proof (cleanup_unlinks tmp inp d) as Hall.
  rewrite List.Forall_forall in Hall. auto.
Qed.

(** Splits a membership in an explicit trace into its cases. *)
Ltac in_cases H :=
  repeat first
    [ apply in_cleanup in H; destruct H as [? H]
    | apply in_app_or in H
    | destruct H as [H|H]
    | progress simpl in H ];
  try discriminate; try contradiction.

Ltac absurd_run :=
  try match goal with H : _ \/ _ |- _ => destruct H; subst; discriminate end;
  try congruence;
  try match goal with
      | Hoff : on_disk (UPSCAYL_BIN ?s) (fs ?s) = false,
        Hbin : UPSCAYL_BIN ?s = VStr ?b, Hex : is_Some (fs ?s !! ?b) |- _ =>
          exfalso; rewrite Hbin in Hoff; simpl in Hoff;
          apply bool_decide_eq_false in Hoff; contradiction
      end.


(** With upscaling requested, the executable not on disk and a configured
    path without string conversion, the warning is never emitted: the run
    is [start] and the [error] of the conversion. *)
Lemma unnamed_executable_run f settings s :
  truthy (field settings "upscale") = true ->
  on_disk (UPSCAYL_BIN s) (fs s) = false ->
  to_string (UPSCAYL_BIN s) = None ->
  let s' := (processImage __dirname X (VStr f) settings s).2 in
  since s s' = [Emit (EvStart (VStr f)); Emit (EvError (VStr f) (message NoPrimitive))].
Proof.
  cbv zeta. intros Hup Hoff Htext.
  run_cases __dirname X f settings s; absurd_run. reflexivity.
Qed.

(** C7. Every child a run asks for is of the configured executable, with
    the arguments [-i input -o intermediate -s 4 -m models -n model -f png],
    where the model is [settings.model] when that is truthy and
    [upscayl-standard-4x] when it is not; the run reaches the next stage
    exactly when the child ran and its exit code is 0, ends with the
    [error] event on the code when the child ran and its code is another,
    and does not get further when the child failed to start. *)
Theorem executor_invocation f settings s bin args :
  let done := processImage __dirname X (VStr f) settings s in
  let s' := done.2 in
  In (Spawn bin args) (since s s') ->
  UPSCAYL_BIN s = VStr bin /\
  (exists model,
     args = [VStr "-i"; VStr (inputPath __dirname f);
             VStr "-o"; VStr (tempUpscaledPath __dirname f);
             VStr "-s"; VStr "4";
             VStr "-m"; VStr (MODELS_PATH s);
             VStr "-n"; model;
             VStr "-f"; VStr "png"] /\
     (truthy (field settings "model") = true -> model = field settings "model") /\
     (truthy (field settings "model") = false -> model = VStr "upscayl-standard-4x")) /\
  ((upscayl X bin args (fs s)).1 = Closed (Some 0) <->
   In (Emit (EvStep (VStr f) "Optimizing & Tagging...")) (since s s')) /\
  (forall code,
     (upscayl X bin args (fs s)).1 = Closed code -> code <> Some 0 ->
     done.1 = Ok tt /\
     last (since s s') =
       Some (Emit (EvError (VStr f) ("Upscayl exited with code " +:+ show_code code)))) /\
  ((upscayl X bin args (fs s)).1 = Failed <-> done.1 = Unsettled) /\
  (forall msg, (upscayl X bin args (fs s)).1 <> Refused msg).
Proof.
  cbv zeta. intros Hin.
  run_cases __dirname X f settings s; in_cases Hin.
  all: injection Hin as <- <-.
  all: split; [assumption|].
  all: split;
    [ eexists; split; [reflexivity|]; unfold js_or;
      split; [intros -> | intros ->]; reflexivity |].
  all: match goal with H : upscayl _ _ _ _ = _ |- _ => rewrite H end; simpl.
  all: split; [split; [intros Hz | intros Hz; in_cases Hz]|]; try congruence.
  all: try (repeat (apply in_or_app; right); simpl; auto; fail).
  all: split; [intros c Hc Hne; try discriminate;
               try (injection Hc as <-); try congruence; auto|].
  all: split; [split; intros Hz; try discriminate; reflexivity|].
  all: intros msg0 Hm; discriminate.
Qed.

Lemma processImage_returns f settings s :
  (processImage __dirname X (VStr f) settings s).1 = Ok tt \/
  (processImage __dirname X (VStr f) settings s).1 = Unsettled.
Proof.
  destruct (processImage_cases __dirname X f settings s) as (r & s1 & _ & _ & Heq).
  rewrite Heq. destruct r; auto.
Qed.

Lemma for_of_in_turn settings files s :
  for_of (map VStr files) (fun file => processImage __dirname X file settings) s
  = (if all_return __dirname X settings files s then Ok tt else Unsettled,
     in_turn __dirname X settings files s).
Proof.
  revert s. induction files as [|f files IH]; intros s; simpl; [reflexivity|].
  unfold bind. destruct (processImage_returns f settings s) as [Hr|Hr];
    destruct (processImage __dirname X (VStr f) settings s) as [r s1];
    simpl in Hr; subst r; [apply IH|reflexivity].
Qed.

Lemma in_turn_advance settings files s :
  exists t d, in_turn __dirname X settings files s = advance s t d.
Proof.
  revert s. induction files as [|f files IH]; intros s; simpl.
  - exists [], (fs s). unfold advance. rewrite app_nil_r. by destruct s.
  - destruct (processImage_advance f settings s) as (t1 & d1 & Hs1).
    destruct (processImage __dirname X (VStr f) settings s) as [r s1].
    simpl in Hs1. subst s1.
    destruct r; eauto.
    destruct (IH (advance s t1 d1)) as (t2 & d2 & ->).
    rewrite advance_advance. eauto.
Qed.

(** The events of a batch are the runs of its files, in order, each one a
    complete [start .. terminal] sequence; where a run does not return,
    its [start] and [Upscaling...] are the last events of the batch. *)
Lemma in_turn_events settings files s :
  exists runs,
    events (since s (in_turn __dirname X settings files s)) = concat runs /\
    if all_return __dirname X settings files s
    then Forall2 (fun f run => exists steps term,
                    run = (EvStart (VStr f) :: steps ++ [term])%list /\
                    Forall (is_step_of (VStr f)) steps /\ is_terminal_of (VStr f) term)
                 files runs
    else exists before f after finished,
           files = (before ++ f :: after)%list /\
           runs = (finished ++ [[EvStart (VStr f); EvStep (VStr f) "Upscaling..."]])%list /\
           Forall2 (fun f run => exists steps term,
                      run = (EvStart (VStr f) :: steps ++ [term])%list /\
                      Forall (is_step_of (VStr f)) steps /\ is_terminal_of (VStr f) term)
                   before finished.
Proof.
  revert s. induction files as [|f files IH]; intros s; simpl.
  - exists []. split; [|constructor]. unfold since. by rewrite drop_all.
  - pose proof (run_protocol f settings s) as Hrun. cbv zeta in Hrun.
    destruct (processImage_advance f settings s) as (t1 & d1 & Hs1).
    destruct (processImage __dirname X (VStr f) settings s) as [r s1].
    simpl in Hs1, Hrun. subst s1. rewrite since_advance in Hrun.
    destruct Hrun as [(-> & steps & term & Hev & Hsteps & Hterm)|(-> & Hev & _)].
    + destruct (IH (advance s t1 d1)) as (runs & Hruns & Hall).
      destruct (in_turn_advance settings files (advance s t1 d1)) as (t2 & d2 & Hs2).
      rewrite Hs2 in *. rewrite since_advance in Hruns.
      rewrite advance_advance, since_advance, events_app, Hev, Hruns.
      exists ((EvStart (VStr f) :: steps ++ [term])%list :: runs).
      split; [reflexivity|].
      destruct (all_return __dirname X settings files (advance s t1 d1)).
      * constructor; eauto.
      * destruct Hall as (before & g & after & finished & -> & -> & Hdone).
        exists (f :: before), g, after,
          ((EvStart (VStr f) :: steps ++ [term])%list :: finished).
        split; [reflexivity|]. split; [reflexivity|]. constructor; eauto.
    + rewrite since_advance, Hev.
      exists [[EvStart (VStr f); EvStep (VStr f) "Upscaling..."]].
      split; [reflexivity|]. exists [], f, files, []. repeat split. constructor.
Qed.

(** C6. With [filename] equal to ['all'], the handler reads the input
    directory, keeps the names that end in [.png], [.jpg], [.jpeg] or
    [.webp] in any case, replies
    [{status:'started', count}] with their number, and then runs the files
    one after the other, each from the state the previous one left; the
    progress events are the complete runs of the files, in order.  With no
    matching file the reply has count 0 and there is no progress event.
    The handler returns when every run returns; a run that does not
    return, its child having failed to start, is the last of the batch,
    after the complete runs of the files before it. *)
Theorem batch_all_sequential body listing s :
  field body "filename" = VStr "all" ->
  readdir X (fs s) (input (DIRS __dirname)) = Resolved listing ->
  let files := List.filter is_image listing in
  let replied :=
    record (Respond 200 (Started (length files)))
      (with_sent true (record (Readdir (input (DIRS __dirname))) (with_sent false s))) in
  let s' := in_turn __dirname X (field body "settings") files replied in
  let returns := all_return __dirname X (field body "settings") files replied in
  (forall f, In f files <-> In f listing /\ has_image_extension f) /\
  post_process __dirname X body s = (if returns then Ok tt else Unsettled, s') /\
  since s s' = ([Readdir (input (DIRS __dirname)); Respond 200 (Started (length files))]
                ++ since replied s')%list /\
  (exists runs,
     events (since s s') = concat runs /\
     if returns
     then Forall2 (fun f run => exists steps term,
                     run = (EvStart (VStr f) :: steps ++ [term])%list /\
                     Forall (is_step_of (VStr f)) steps /\ is_terminal_of (VStr f) term)
                  files runs
     else exists before f after finished,
            files = (before ++ f :: after)%list /\
            runs = (finished ++ [[EvStart (VStr f); EvStep (VStr f) "Upscaling..."]])%list /\
            Forall2 (fun f run => exists steps term,
                       run = (EvStart (VStr f) :: steps ++ [term])%list /\
                       Forall (is_step_of (VStr f)) steps /\ is_terminal_of (VStr f) term)
                    before finished) /\
  (files = [] ->
   returns = true /\
   since s s' = [Readdir (input (DIRS __dirname)); Respond 200 (Started 0)] /\
   events (since s s') = []).
Proof.
  cbv zeta. intros Hname Hdir.
  set (files := List.filter is_image listing).
  set (replied := record _ _).
  assert (Hbody : destructure body "filename" "req.body" = ret tt).
  { destruct body; simpl in Hname; try discriminate; reflexivity. }
  assert (Hsince : since s replied = [Readdir (input (DIRS __dirname));
                                     Respond 200 (Started (length files))]).
  { apply since_app. subst replied. simpl. by rewrite <- app_assoc. }
  destruct (in_turn_advance (field body "settings") files replied) as (t & d & Hturn).
  assert (Hall : since s (in_turn __dirname X (field body "settings") files replied)
                 = ([Readdir (input (DIRS __dirname)); Respond 200 (Started (length files))]
                    ++ since replied (in_turn __dirname X (field body "settings") files replied))%list).
  { rewrite Hturn, since_advance. apply since_app. simpl.
    subst replied. simpl. by rewrite <- !app_assoc. }
  split; [|split; [|split; [exact Hall|split]]].
  - intros f. subst files. rewrite filter_In, is_image_spec. reflexivity.
  - unfold post_process. rewrite Hbody. rewrite Hname.
    unfold bind at 1. simpl. unfold bind at 1. simpl.
    unfold try_catch, bind, readdirSync, bind, modify, get, await, respond. simpl.
    simpl in Hdir. rewrite Hdir. unfold ret. simpl.
    rewrite for_of_in_turn, length_map. fold files. fold replied.
    by destruct (all_return _ _ _ _ _).
  - destruct (in_turn_events (field body "settings") files replied) as (runs & Hev & Hruns).
    exists runs. split; [|exact Hruns].
    rewrite Hall, events_app, Hev. reflexivity.
  - intros Hnone. rewrite Hall. rewrite Hnone in *. simpl.
    unfold since. rewrite drop_all. simpl. auto.
Qed.

(** C8. With [filename] a string other than ['all'], the handler replies
    with count 1 and runs [processImage] on that very name: whatever its
    extension, whether or not the file exists, and without reading any
    directory.  The handler ends as that run does: it returns, or does not
    get further where the child of the run failed to start. *)
Theorem batch_single_unchecked body name s :
  field body "filename" = VStr name ->
  name <> "all" ->
  let replied := record (Respond 200 (Started 1)) (with_sent true (with_sent false s)) in
  let run := processImage __dirname X (VStr name) (field body "settings") replied in
  let s' := run.2 in
  post_process __dirname X body s = (run.1, s') /\
  (run.1 = Ok tt \/ run.1 = Unsettled) /\
  (exists rest,
     since s s' = Respond 200 (Started 1) :: Emit (EvStart (VStr name)) :: rest) /\
  (forall dir, ~ In (Readdir dir) (since s s')).
Proof.
  cbv zeta. intros Hname Hnot.
  set (replied := record _ _).
  assert (Hbody : destructure body "filename" "req.body" = ret tt).
  { destruct body; simpl in Hname; try discriminate; reflexivity. }
  apply String.eqb_neq in Hnot.
  split; [|split; [apply processImage_returns|]].
  - unfold post_process. rewrite Hbody, Hname.
    unfold try_catch, bind, modify, respond, ret. simpl. rewrite Hnot. simpl.
    fold replied. unfold bind, ret.
    destruct (processImage_returns name (field body "settings") replied) as [Hret|Hret];
      destruct (processImage __dirname X (VStr name) (field body "settings") replied)
        as [r s1]; simpl in Hret; subst r; reflexivity.
  - assert (Hr : forall t d, since s (advance replied t d) = Respond 200 (Started 1) :: t).
    { intros t d. apply since_app. subst replied. simpl. by rewrite <- app_assoc. }
    run_cases __dirname X name (field body "settings") replied; rewrite Hr;
      (split; [eexists; simpl; reflexivity|]);
      intros dir Hin; in_cases Hin.
Qed.

(** C9. A configuration write whose body has no [path] property leaves the
    executable path, the models directory and the disk as they were and
    replies with success and the current values. *)
Theorem config_without_path_unchanged props s :
  getOwn "path" props = None ->
  let s' := (post_config (VObj props) s).2 in
  post_config (VObj props) s = (Ok tt, s') /\
  UPSCAYL_BIN s' = UPSCAYL_BIN s /\
  MODELS_PATH s' = MODELS_PATH s /\
  fs s' = fs s /\
  since s s' = [Respond 200 (Saved (UPSCAYL_BIN s) (MODELS_PATH s))].
Proof.
  cbv zeta. intros Hnone.
  unfold post_config, js_get, field, bind, ret, modify, get, respond. simpl.
  rewrite Hnone. simpl. repeat split. by apply since_app.
Qed.

(** C10. Two file names [stem.ext1] and [stem.ext2] have the same final
    output path, [<output>/stem.jpg].  When both are processed successfully,
    one after the other, each run writes its encoding to that path; the
    first run leaves a file there, and after the second run the file there
    is what the second run encoded (as long as the path is not one the
    cleanup of that run unlinks). *)
Theorem same_stem_overwrites stem ext1 ext2 settings1 settings2 s :
  stem <> "" -> ext1 <> "" -> ext2 <> "" ->
  mentions path.slash stem = false ->
  mentions path.slash ext1 = false -> mentions path.dot ext1 = false ->
  mentions path.slash ext2 = false -> mentions path.dot ext2 = false ->
  let f1 := stem +:+ "." +:+ ext1 in
  let f2 := stem +:+ "." +:+ ext2 in
  let final := path.join (output (DIRS __dirname)) (stem +:+ ".jpg") in
  let s1 := (processImage __dirname X (VStr f1) settings1 s).2 in
  let s2 := (processImage __dirname X (VStr f2) settings2 s1).2 in
  finalOutputPath __dirname f1 = final /\
  finalOutputPath __dirname f2 = final /\
  (successful (since s s1) -> successful (since s1 s2) ->
   In (ToFile final (tags_of (VStr f1)) jpeg_settings) (since s s1) /\
   In (ToFile final (tags_of (VStr f2)) jpeg_settings) (since s1 s2) /\
   (final <> inputPath __dirname f1 -> final <> tempUpscaledPath __dirname f1 ->
    is_Some (fs s1 !! final)) /\
   (final <> inputPath __dirname f2 -> final <> tempUpscaledPath __dirname f2 ->
    exists d buf bytes,
      sharp_toFile X d buf (tags_of (VStr f2)) jpeg_settings final = Resolved bytes /\
      fs s2 !! final = Some bytes)).
Proof.
  intros Hs H1 H2 Hss H1s H1d H2s H2d. cbv zeta.
  assert (E1 : finalOutputPath __dirname (stem +:+ "." +:+ ext1)
               = path.join (output (DIRS __dirname)) (stem +:+ ".jpg")).
  { unfold finalOutputPath. by rewrite parse_name_of_stem_ext. }
  assert (E2 : finalOutputPath __dirname (stem +:+ "." +:+ ext2)
               = path.join (output (DIRS __dirname)) (stem +:+ ".jpg")).
  { unfold finalOutputPath. by rewrite parse_name_of_stem_ext. }
  split; [exact E1|]. split; [exact E2|].
  intros Hok1 Hok2.
  destruct (successful_run _ _ _ Hok1) as (d1 & b1 & y1 & pre1 & _ & Hfs1 & Htr1 & _).
  destruct (successful_run _ _ _ Hok2) as (d2 & b2 & y2 & pre2 & Hto & Hfs2 & Htr2 & _).
  rewrite E1 in Hfs1, Htr1. rewrite E2 in Hfs2, Hto, Htr2.
  split; [rewrite Htr1; apply in_or_app; right; left; reflexivity|].
  split; [rewrite Htr2; apply in_or_app; right; left; reflexivity|].
  split.
  - intros Hi1 Ht1.
    rewrite Hfs1, !lookup_delete_ne, lookup_insert_eq by congruence. eauto.
  - intros Hi2 Ht2. exists d2, b2, y2. split; [exact Hto|].
    rewrite Hfs2, !lookup_delete_ne, lookup_insert_eq by congruence. reflexivity.
Qed.

End Claims.


(** For a plain file name under an absolute, normalised [__dirname] the
    three paths are apart, so a successful run always leaves the output
    file and no input file. *)
Lemma plain_name_run_replaces_input segs X f settings s :
  Forall (fun seg => plain_segment seg = true) segs ->
  plain_name f = true ->
  let s' := (processImage (absolute segs) X (VStr f) settings s).2 in
  successful (since s s') ->
  fs s' !! inputPath (absolute segs) f = None /\
  is_Some (fs s' !! finalOutputPath (absolute segs) f) /\
  fs s' !! tempUpscaledPath (absolute segs) f = None.
Proof.
  intros Hsegs Hf. cbv zeta. intros Hok.
  destruct (plain_name_paths_distinct segs Hsegs f Hf) as [Hin Htmp].
  by apply successful_run_disk.
Qed.

(** ** The theorems at work on the demo installation *)

Ltac by_computation := vm_compute; first [reflexivity | discriminate].



(** C3 as stated fails: for the name [../output/old.jpg] the input, the
    intermediate and the final path are one file; the run succeeds, and the
    cleanup has unlinked the file it wrote. *)
Lemma traversal_run_loses_output :
  let f := "../output/old.jpg" in
  let s' := (processImage demo_root lab (VStr f) without_upscale demo_unconfigured).2 in
  is_Some (fs demo_unconfigured !! inputPath demo_root f) /\
  successful (since demo_unconfigured s') /\
  fs s' !! finalOutputPath demo_root f = None.
Proof.
  cbv zeta. split; [|split].
  - exists "O". by_computation.
  - exists (VStr "../output/old.jpg"), "/output/old.jpg". by_computation.
  - by_computation.
Qed.


Lemma successful_run_replaces_input_witness :
  let s' := (processImage demo_root lab (VStr "a.png") without_upscale demo_unconfigured).2 in
  fs s' !! inputPath demo_root "a.png" = None /\
  is_Some (fs s' !! finalOutputPath demo_root "a.png").
Proof.
  cbv zeta.
  pose proof (successful_run_replaces_input demo_root lab "a.png" without_upscale
                demo_unconfigured) as H.
  assert (H1 : successful (since demo_unconfigured
                 (processImage demo_root lab (VStr "a.png") without_upscale
                    demo_unconfigured).2)).
  { exists (VStr "a.png"), "/output/a.jpg". by_computation. }
  assert (H2 : finalOutputPath demo_root "a.png" <> inputPath demo_root "a.png")
    by by_computation.
  assert (H3 : finalOutputPath demo_root "a.png" <> tempUpscaledPath demo_root "a.png")
    by by_computation.
  destruct (H H1 H2 H3) as (Hin & Hout & _). exact (conj Hin Hout).
Defined.

Lemma executor_failure_aborts_witness :
  let s' := (processImage demo_root lab_crashing (VStr "a.png") with_upscale
               demo_configured).2 in
  (exists msg,
     since demo_configured s' =
       [Emit (EvStart (VStr "a.png"));
        Emit (EvStep (VStr "a.png") "Upscaling...");
        Spawn demo_bin (argv (inputPath demo_root "a.png") (tempUpscaledPath demo_root "a.png")
                          (MODELS_PATH demo_configured) with_upscale);
        Emit (EvError (VStr "a.png") msg)] /\
     msg = "Upscayl exited with code " +:+ "3") /\
  is_Some (fs s' !! inputPath demo_root "a.png") /\
  is_Some (fs s' !! tempUpscaledPath demo_root "a.png").
Proof.
  cbv zeta.
  pose proof (executor_failure_aborts demo_root lab_crashing "a.png" with_upscale
                demo_configured demo_bin (Some 3)
                (<["/srv/app/temp/a.png" := "partial"]> demo_disk)) as H.
  cbv zeta in H.
  assert (H1 : truthy (field with_upscale "upscale") = true) by reflexivity.
  assert (H2 : UPSCAYL_BIN demo_configured = VStr demo_bin) by reflexivity.
  assert (H3 : is_Some (fs demo_configured !! demo_bin)).
  { exists "ELF". by_computation. }
  assert (H4 : joined " " (argv (inputPath demo_root "a.png")
                             (tempUpscaledPath demo_root "a.png")
                             (MODELS_PATH demo_configured) with_upscale) <> None)
    by by_computation.
  assert (H5 : spawn_check lab_crashing demo_bin
                 (argv (inputPath demo_root "a.png") (tempUpscaledPath demo_root "a.png")
                    (MODELS_PATH demo_configured) with_upscale) = None)
    by by_computation.
  assert (H6 : upscayl lab_crashing demo_bin
                 (argv (inputPath demo_root "a.png") (tempUpscaledPath demo_root "a.png")
                    (MODELS_PATH demo_configured) with_upscale) (fs demo_configured)
               = (Closed (Some 3), <["/srv/app/temp/a.png" := "partial"]> demo_disk))
    by by_computation.
  assert (H7 : Some 3 <> Some 0) by discriminate.
  destruct (H H1 H2 H3 H4 H5 H6 H7) as (_ & (msg & Ht & _ & Hmsg) & _ & Hinput & Htemp).
  split; [|split].
  - exists msg. split; [exact Ht|].
    assert (Hsmall : 0 <= 3 < 2 ^ 53) by (split; by_computation).
    rewrite (Hmsg 3 eq_refl Hsmall). by_computation.
  - apply Hinput. exists "A". by_computation.
  - apply Htemp. exists "partial". by_computation.
Defined.


Lemma executor_invocation_witness :
  UPSCAYL_BIN demo_configured = VStr demo_bin /\
  (exists model,
     [VStr "-i"; VStr "/srv/app/input/a.png";
      VStr "-o"; VStr "/srv/app/temp/a.png";
      VStr "-s"; VStr "4";
      VStr "-m"; VStr "C:\Program Files\Upscayl\resources\models";
      VStr "-n"; VStr "realesrgan-x4plus";
      VStr "-f"; VStr "png"]
     = [VStr "-i"; VStr (inputPath demo_root "a.png");
        VStr "-o"; VStr (tempUpscaledPath demo_root "a.png");
        VStr "-s"; VStr "4";
        VStr "-m"; VStr (MODELS_PATH demo_configured);
        VStr "-n"; model;
        VStr "-f"; VStr "png"] /\
     (truthy (field with_model "model") = true -> model = field with_model "model") /\
     (truthy (field with_model "model") = false -> model = VStr "upscayl-standard-4x")) /\
  In (Emit (EvStep (VStr "a.png") "Optimizing & Tagging..."))
     (since demo_configured
        (processImage demo_root lab (VStr "a.png") with_model demo_configured).2).
Proof.
  pose proof (executor_invocation demo_root lab "a.png" with_model demo_configured
                demo_bin
                [VStr "-i"; VStr "/srv/app/input/a.png";
                 VStr "-o"; VStr "/srv/app/temp/a.png";
                 VStr "-s"; VStr "4";
                 VStr "-m"; VStr "C:\Program Files\Upscayl\resources\models";
                 VStr "-n"; VStr "realesrgan-x4plus";
                 VStr "-f"; VStr "png"]) as H.
  cbv zeta in H.
  match type of H with
  | ?hyp -> _ => assert (H1 : hyp) by (vm_compute; auto)
  end.
  destruct (H H1) as (Hbin & Hargs & Hok & _).
  split; [exact Hbin|]. split; [exact Hargs|]. apply Hok. by_computation.
Defined.

Lemma batch_all_sequential_witness :
  let s' := (post_process demo_root lab demo_batch demo_unconfigured).2 in
  (post_process demo_root lab demo_batch demo_unconfigured).1 = Ok tt /\
  since demo_unconfigured s' !! 1%nat = Some (Respond 200 (Started 3)) /\
  (post_process demo_root lab demo_batch (boot ∅)).1 = Ok tt /\
  since (boot ∅) (post_process demo_root lab demo_batch (boot ∅)).2
  = [Readdir "/srv/app/input"; Respond 200 (Started 0)].
Proof.
  cbv zeta.
  pose proof (batch_all_sequential demo_root lab demo_batch
              ["a.webp"; "a.png"; "notes.txt"; "b.JPG"] demo_unconfigured) as H.
  assert (H1 : field demo_batch "filename" = VStr "all") by reflexivity.
  assert (H2 : readdir lab (fs demo_unconfigured) (input (DIRS demo_root))
               = Resolved ["a.webp"; "a.png"; "notes.txt"; "b.JPG"])
    by (vm_compute; reflexivity).
  specialize (H H1 H2).
  cbv zeta in H.
  destruct H as (_ & Hrun & Hsince & _).
  pose proof (batch_all_sequential demo_root lab demo_batch [] (boot ∅)) as H0.
  assert (H3 : readdir lab (fs (boot ∅)) (input (DIRS demo_root)) = Resolved [])
    by (vm_compute; reflexivity).
  specialize (H0 H1 H3).
  cbv zeta in H0.
  destruct H0 as (_ & Hrun0 & _ & _ & Hnone).
  specialize (Hnone eq_refl).
  destruct Hnone as (_ & Hnone & _).
  rewrite Hrun, Hrun0. cbn [fst snd].
  rewrite Hnone.
  split; [vm_compute; reflexivity|].
  split; [vm_compute; reflexivity|].
  split; [vm_compute; reflexivity|].
  vm_compute. reflexivity.
Defined.

Lemma batch_single_unchecked_witness :
  let replied :=
    record (Respond 200 (Started 1)) (with_sent true (with_sent false demo_unconfigured)) in
  let run := processImage demo_root lab (VStr "notes.txt") (field demo_single "settings")
               replied in
  is_image "notes.txt" = false /\
  fs demo_unconfigured !! inputPath demo_root "zzz.txt" = None /\
  post_process demo_root lab demo_single demo_unconfigured = (run.1, run.2) /\
  run.1 = Ok tt /\
  exists rest,
    since demo_unconfigured run.2
    = Respond 200 (Started 1) :: Emit (EvStart (VStr "notes.txt")) :: rest.
Proof.
  cbv zeta.
  pose proof (batch_single_unchecked demo_root lab demo_single "notes.txt"
                demo_unconfigured) as H.
  assert (H1 : field demo_single "filename" = VStr "notes.txt") by reflexivity.
  assert (H2 : "notes.txt" <> "all") by discriminate.
  destruct (H H1 H2) as (Hrun & _ & Hrest & _).
  split; [by_computation|]. split; [by_computation|]. split; [exact Hrun|].
  split; [by_computation|exact Hrest].
Defined.

Lemma config_without_path_unchanged_witness :
  let s' := (post_config (VObj [("other", VStr "x")]) demo_configured).2 in
  UPSCAYL_BIN s' = UPSCAYL_BIN demo_configured /\
  MODELS_PATH s' = MODELS_PATH demo_configured /\
  since demo_configured s'
  = [Respond 200 (Saved (UPSCAYL_BIN demo_configured) (MODELS_PATH demo_configured))].
Proof.
  cbv zeta.
  pose proof (config_without_path_unchanged [("other", VStr "x")] demo_configured) as H.
  assert (H1 : getOwn "path" [("other", VStr "x")] = None) by reflexivity.
  destruct (H H1) as (_ & Hbin & Hmodels & _ & Ht).
  exact (conj Hbin (conj Hmodels Ht)).
Defined.

Lemma same_stem_overwrites_witness :
  let f1 := "a" +:+ "." +:+ "png" in
  let f2 := "a" +:+ "." +:+ "webp" in
  let final := path.join (output (DIRS demo_root)) ("a" +:+ ".jpg") in
  let s1 := (processImage demo_root lab (VStr f1) without_upscale demo_unconfigured).2 in
  let s2 := (processImage demo_root lab (VStr f2) without_upscale s1).2 in
  finalOutputPath demo_root f1 = final /\
  finalOutputPath demo_root f2 = final /\
  is_Some (fs s1 !! final) /\
  exists d buf bytes,
    sharp_toFile lab d buf (tags_of (VStr f2)) jpeg_settings final = Resolved bytes /\
    fs s2 !! final = Some bytes.
Proof.
  cbv zeta.
  pose proof (same_stem_overwrites demo_root lab "a" "png" "webp" without_upscale
                without_upscale demo_unconfigured) as H.
  assert (Ha : "a" <> "") by discriminate.
  assert (Hp : "png" <> "") by discriminate.
  assert (Hw : "webp" <> "") by discriminate.
  specialize (H Ha Hp Hw eq_refl eq_refl eq_refl eq_refl eq_refl).
  cbv zeta in H. destruct H as (E1 & E2 & Hover).
  split; [exact E1|]. split; [exact E2|].
  destruct Hover as (_ & _ & Hfirst & Hsecond).
  - exists (VStr "a.png"), "/output/a.jpg". by_computation.
  - exists (VStr "a.webp"), "/output/a.jpg". by_computation.
  - split; [apply Hfirst | apply Hsecond]; by_computation.
Defined.

(** * Further properties of the server and of the page *)

Lemma in_cleanup_unlink e tmp inp d : In e (cleanup tmp inp d) -> is_unlink e.
Proof.
  intros H. pose proof (cleanup_unlinks tmp inp d) as Hall.
  rewrite List.Forall_forall in Hall. auto.
Qed.

(** Splits a membership in an explicit trace into its cases. *)
Ltac trace_cases H :=
  repeat first
    [ apply in_cleanup_unlink in H; destruct H as [? H]
    | apply in_app_or in H
    | destruct H as [H|H]
    | progress simpl in H ];
  try discriminate; try contradiction.

Section More.
Variable __dirname : string.
Variable X : collaborators.

(** X1. A run of [processImage], whatever the file name, the settings and
    the collaborators, leaves the executable path, the models directory and
    the sent flag of the response as they were, and only adds to the trace. *)
Theorem processImage_keeps_globals fileName settings s :
  let s' := (processImage __dirname X fileName settings s).2 in
  UPSCAYL_BIN s' = UPSCAYL_BIN s /\
  MODELS_PATH s' = MODELS_PATH s /\
  headersSent s' = headersSent s /\
  exists t, trace s' = (trace s ++ t)%list.
Proof.
  cbv zeta. destruct fileName as [| | | |f| |];
    try (simpl; repeat split; exists []; by rewrite app_nil_r).
  destruct (processImage_advance __dirname X f settings s) as (t & d & ->).
  simpl. eauto.
Qed.

(** X2. A run that ends in [error] has unlinked nothing, and every write
    of an output file it asked for was rejected: the disk is the one before
    the run, or the one the executor left where the executor was started. *)
Theorem failed_run_keeps_files f settings s :
  let s' := (processImage __dirname X (VStr f) settings s).2 in
  (exists msg, last (since s s') = Some (Emit (EvError (VStr f) msg))) ->
  (forall p, ~ In (Unlink p) (since s s')) /\
  (forall dst tags opts, In (ToFile dst tags opts) (since s s') ->
     exists d buf msg, sharp_toFile X d buf tags opts dst = Rejected msg) /\
  ((forall b a, ~ In (Spawn b a) (since s s')) -> fs s' = fs s) /\
  (forall b a, In (Spawn b a) (since s s') -> fs s' = (upscayl X b a (fs s)).2).
Proof.
  cbv zeta. intros [msg Hlast].
  run_cases __dirname X f settings s.
  all: try (exfalso; rewrite ?app_assoc in Hlast; rewrite last_snoc in Hlast; discriminate).
  all: split; [intros p Hin; trace_cases Hin|].
  all: split; [intros dst tags opts Hin; trace_cases Hin; try (injection Hin as <- <- <-; eauto)|].
  all: split; [intros Hno; try reflexivity; exfalso; eapply Hno; apply in_or_app; right; simpl; eauto|].
  all: intros b a Hin; trace_cases Hin; injection Hin as <- <-.
  all: match goal with H : upscayl _ _ _ _ = _ |- _ => rewrite H end; reflexivity.
Qed.

(** X3. Without settings ([undefined] or [null]) a run returns normally
    after [start] and an [error] with the [TypeError] of reading [upscale];
    it touches no file. *)
Theorem run_without_settings f settings s :
  settings = VUndefined \/ settings = VNull ->
  let s' := (processImage __dirname X (VStr f) settings s).2 in
  (processImage __dirname X (VStr f) settings s).1 = Ok tt /\
  since s s' = [Emit (EvStart (VStr f));
                Emit (EvError (VStr f) (message (NullishRead settings "upscale")))] /\
  fs s' = fs s.
Proof.
  cbv zeta. intros [->| ->]; (split; [reflexivity|]); (split; [|reflexivity]);
    apply since_app; simpl; by rewrite <- app_assoc.
Qed.

Lemma upscale_off_run f settings s :
  settings <> VUndefined -> settings <> VNull ->
  truthy (field settings "upscale") = false ->
  let s' := (processImage __dirname X (VStr f) settings s).2 in
  (forall b a, ~ In (Spawn b a) (since s s')) /\
  (exists rest,
     since s s' = ([Emit (EvStart (VStr f));
                    Emit (EvStep (VStr f) "Optimizing & Tagging...");
                    Metadata (inputPath __dirname f)] ++ rest)%list) /\
  (forall u buf bytes,
     sharp_metadata X (fs s) (inputPath __dirname f) = Resolved u ->
     sharp_toBuffer X (fs s) (inputPath __dirname f) = Resolved buf ->
     sharp_toFile X (fs s) buf (tags_of (VStr f)) jpeg_settings (finalOutputPath __dirname f)
       = Resolved bytes ->
     since s s' =
       ([Emit (EvStart (VStr f));
         Emit (EvStep (VStr f) "Optimizing & Tagging...");
         Metadata (inputPath __dirname f);
         ToBuffer (inputPath __dirname f);
         ToFile (finalOutputPath __dirname f) (tags_of (VStr f)) jpeg_settings]
        ++ cleanup (tempUpscaledPath __dirname f) (inputPath __dirname f)
             (<[finalOutputPath __dirname f := bytes]> (fs s))
        ++ [Emit (EvComplete (VStr f)
                    ("/output/" +:+ path.basename (finalOutputPath __dirname f)))])%list /\
     fs s' = delete (inputPath __dirname f)
               (delete (tempUpscaledPath __dirname f)
                  (<[finalOutputPath __dirname f := bytes]> (fs s)))).
Proof.
  cbv zeta. intros Hu Hn Hoff.
  run_cases __dirname X f settings s;
    try match goal with H : _ \/ _ |- _ => destruct H; congruence end;
    try congruence.
  all: split; [intros b a Hin; trace_cases Hin|].
  all: split; [eexists; simpl; reflexivity|].
  all: intros u' buf' bytes' Hm Hb Hf; try congruence.
  assert (buf' = buf) by congruence. subst buf'.
  assert (bytes' = bytes) by congruence. subst bytes'.
  split; reflexivity.
Qed.

(** X4. With [settings.upscale] falsy the executor is never started and the
    image library reads the input file itself; when the library accepts,
    the run is [start], the optimizing step, the three library calls on the
    input, the cleanup and [complete], and the disk is the old one with the
    output written and the input and intermediate files removed. *)
Theorem run_without_upscale f settings s :
  settings <> VUndefined -> settings <> VNull ->
  truthy (field settings "upscale") = false ->
  let s' := (processImage __dirname X (VStr f) settings s).2 in
  (forall b a, ~ In (Spawn b a) (since s s')) /\
  (exists rest,
     since s s' = ([Emit (EvStart (VStr f));
                    Emit (EvStep (VStr f) "Optimizing & Tagging...");
                    Metadata (inputPath __dirname f)] ++ rest)%list) /\
  (forall u buf bytes,
     sharp_metadata X (fs s) (inputPath __dirname f) = Resolved u ->
     sharp_toBuffer X (fs s) (inputPath __dirname f) = Resolved buf ->
     sharp_toFile X (fs s) buf (tags_of (VStr f)) jpeg_settings (finalOutputPath __dirname f)
       = Resolved bytes ->
     since s s' =
       ([Emit (EvStart (VStr f));
         Emit (EvStep (VStr f) "Optimizing & Tagging...");
         Metadata (inputPath __dirname f);
         ToBuffer (inputPath __dirname f);
         ToFile (finalOutputPath __dirname f) (tags_of (VStr f)) jpeg_settings]
        ++ cleanup (tempUpscaledPath __dirname f) (inputPath __dirname f)
             (<[finalOutputPath __dirname f := bytes]> (fs s))
        ++ [Emit (EvComplete (VStr f)
                    ("/output/" +:+ path.basename (finalOutputPath __dirname f)))])%list /\
     fs s' = delete (inputPath __dirname f)
               (delete (tempUpscaledPath __dirname f)
                  (<[finalOutputPath __dirname f := bytes]> (fs s)))).
Proof. exact (upscale_off_run f settings s). Qed.

(** X5. With [settings.upscale] truthy, the executable on disk, arguments
    that [spawn] accepts (a model with a string conversion, no NUL in a
    string) and a child that ran and exited with code 0, the run asks for
    that child once, the image library reads the intermediate file and no
    other, and when the library accepts the run returns with the events
    [start], the two steps and [complete], on the executor's disk with the
    output written and the input and intermediate files removed. *)
Theorem run_with_upscale f settings s bin disk :
  truthy (field settings "upscale") = true ->
  UPSCAYL_BIN s = VStr bin ->
  is_Some (fs s !! bin) ->
  let args := argv (inputPath __dirname f) (tempUpscaledPath __dirname f)
                (MODELS_PATH s) settings in
  joined " " args <> None ->
  spawn_check X bin args = None ->
  upscayl X bin args (fs s) = (Closed (Some 0), disk) ->
  let s' := (processImage __dirname X (VStr f) settings s).2 in
  (processImage __dirname X (VStr f) settings s).1 = Ok tt /\
  (exists rest,
     since s s' =
       ([Emit (EvStart (VStr f));
         Emit (EvStep (VStr f) "Upscaling...");
         Spawn bin args;
         Emit (EvStep (VStr f) "Optimizing & Tagging...");
         Metadata (tempUpscaledPath __dirname f)] ++ rest)%list /\
     forall b a, ~ In (Spawn b a) rest) /\
  (forall p, In (Metadata p) (since s s') \/ In (ToBuffer p) (since s s') ->
             p = tempUpscaledPath __dirname f) /\
  (forall u buf bytes,
     sharp_metadata X disk (tempUpscaledPath __dirname f) = Resolved u ->
     sharp_toBuffer X disk (tempUpscaledPath __dirname f) = Resolved buf ->
     sharp_toFile X disk buf (tags_of (VStr f)) jpeg_settings (finalOutputPath __dirname f)
       = Resolved bytes ->
     events (since s s') =
       [EvStart (VStr f);
        EvStep (VStr f) "Upscaling...";
        EvStep (VStr f) "Optimizing & Tagging...";
        EvComplete (VStr f) ("/output/" +:+ path.basename (finalOutputPath __dirname f))] /\
     fs s' = delete (inputPath __dirname f)
               (delete (tempUpscaledPath __dirname f)
                  (<[finalOutputPath __dirname f := bytes]> disk))).
Proof.
  cbv zeta. intros Hup Hbin Hex Hjoin Hcheck Hrun.
  assert (Hon : on_disk (UPSCAYL_BIN s) (fs s) = true).
  { rewrite Hbin. simpl. by apply bool_decide_eq_true. }
  run_cases __dirname X f settings s;
    try match goal with H : _ \/ _ |- _ => destruct H; subst; discriminate end;
    try congruence;
    match goal with
    | H : UPSCAYL_BIN _ = VStr ?b |- _ => rewrite Hbin in H; injection H as <-
    end;
    try congruence;
    match goal with
    | H : upscayl _ _ _ _ = _ |- _ => rewrite Hrun in H; try discriminate H
    end;
    try congruence.
  all: match goal with H : (_, _) = (_, _) |- _ => injection H as <- end.
  all: split; [reflexivity|].
  all: split; [eexists; split; [simpl; reflexivity|]; intros b a Hin; trace_cases Hin|].
  all: split; [intros p [Hp|Hp]; trace_cases Hp; congruence|].
  all: intros u' buf' bytes' Hm Hb Hf; try congruence.
  assert (buf' = buf) by congruence. subst buf'.
  assert (bytes' = bytes) by congruence. subst bytes'.
  split; [list_events|]; reflexivity.
Qed.

(** The ['all'] branch of the batch handler. *)
Lemma batch_listing body listing s :
  field body "filename" = VStr "all" ->
  readdir X (fs s) (input (DIRS __dirname)) = Resolved listing ->
  let files := List.filter is_image listing in
  let replied :=
    record (Respond 200 (Started (length files)))
      (with_sent true (record (Readdir (input (DIRS __dirname))) (with_sent false s))) in
  let s' := in_turn __dirname X (field body "settings") files replied in
  post_process __dirname X body s
  = (if all_return __dirname X (field body "settings") files replied
     then Ok tt else Unsettled, s') /\
  since s s' = ([Readdir (input (DIRS __dirname)); Respond 200 (Started (length files))]
                ++ since replied s')%list.
Proof.
  cbv zeta. intros Hname Hdir.
  set (files := List.filter is_image listing).
  set (replied := record _ _).
  assert (Hbody : destructure body "filename" "req.body" = ret tt).
  { destruct body; simpl in Hname; try discriminate; reflexivity. }
  destruct (in_turn_advance __dirname X (field body "settings") files replied)
    as (t & d & Hturn).
  split.
  - unfold post_process. rewrite Hbody. rewrite Hname.
    unfold bind at 1. simpl. unfold bind at 1. simpl.
    unfold try_catch, bind, readdirSync, bind, modify, get, await, respond. simpl.
    simpl in Hdir. rewrite Hdir. unfold ret. simpl.
    rewrite for_of_in_turn, length_map. fold files. fold replied.
    by destruct (all_return _ _ _ _ _).
  - rewrite Hturn, since_advance. apply since_app. simpl.
    subst replied. simpl. by rewrite <- !app_assoc.
Qed.


(** An effect of a batch is an effect of the run of one of its files, from
    the state the files before it left. *)
Lemma in_turn_effect settings files s e :
  In e (since s (in_turn __dirname X settings files s)) ->
  exists before f after,
    files = (before ++ f :: after)%list /\
    In e (since (in_turn __dirname X settings before s)
            (processImage __dirname X (VStr f) settings
               (in_turn __dirname X settings before s)).2).
Proof.
  revert s. induction files as [|f files IH]; intros s; simpl.
  - unfold since. rewrite drop_all. intros [].
  - destruct (processImage_advance __dirname X f settings s) as (t1 & d1 & Hs1).
    destruct (processImage __dirname X (VStr f) settings s) as [r s1] eqn:Hrun.
    simpl in Hs1. subst s1.
    assert (Hfirst : In e t1 ->
              exists before g after,
                (f :: files = before ++ g :: after)%list /\
                In e (since (in_turn __dirname X settings before s)
                        (processImage __dirname X (VStr g) settings
                           (in_turn __dirname X settings before s)).2)).
    { intros H1. exists [], f, files. split; [reflexivity|]. simpl.
      rewrite Hrun. cbn [snd]. by rewrite since_advance. }
    destruct r as [[]| |]; try (rewrite since_advance; exact Hfirst).
    destruct (in_turn_advance __dirname X settings files (advance s t1 d1))
      as (t2 & d2 & Hs2).
    intros Hin. assert (Hin' : In e (t1 ++ t2)).
    { rewrite Hs2, advance_advance, since_advance in Hin. exact Hin. }
    apply in_app_or in Hin' as [H1|H2]; [by apply Hfirst|].
    destruct (IH (advance s t1 d1)) as (before & g & after & -> & He).
    { by rewrite Hs2, since_advance. }
    exists (f :: before), g, after. split; [reflexivity|]. simpl. by rewrite Hrun.
Qed.


(** X7. A request whose [filename] is no string is answered with [200] and
    a count of 1 before the run on that name throws; the [catch] of the
    handler then replies to a response already sent, so the handler itself
    throws.  Nothing has been processed. *)
Theorem batch_without_name_fails_late body s :
  body <> VUndefined -> body <> VNull ->
  (forall f, field body "filename" <> VStr f) ->
  let s' := (post_process __dirname X body s).2 in
  (post_process __dirname X body s).1 = Throw HeadersSent /\
  since s s' = [Respond 200 (Started 1)] /\
  fs s' = fs s /\ UPSCAYL_BIN s' = UPSCAYL_BIN s /\ MODELS_PATH s' = MODELS_PATH s.
Proof.
  cbv zeta. intros Hu Hn Hname.
  assert (Hbody : destructure body "filename" "req.body" = ret tt).
  { destruct body; try congruence; reflexivity. }
  unfold post_process. rewrite Hbody.
  destruct (field body "filename") as [| | | |f| |] eqn:E; try (by destruct (Hname f));
    unfold try_catch, bind, modify, respond, ret; simpl;
    repeat split; apply since_app; reflexivity.
Qed.

Lemma batch_unlisted body msg s :
  field body "filename" = VStr "all" ->
  readdir X (fs s) (input (DIRS __dirname)) = Rejected msg ->
  let s' := (post_process __dirname X body s).2 in
  (post_process __dirname X body s).1 = Ok tt /\
  since s s' = [Readdir (input (DIRS __dirname)); Respond 500 (Failure msg)] /\
  fs s' = fs s.
Proof.
  cbv zeta. intros Hname Hdir.
  assert (Hbody : destructure body "filename" "req.body" = ret tt).
  { destruct body; simpl in Hname; try discriminate; reflexivity. }
  unfold post_process. rewrite Hbody, Hname.
  unfold try_catch, bind, readdirSync, bind, modify, get, await, respond, ret, throw. simpl.
  simpl in Hdir. rewrite Hdir. simpl.
  repeat split. apply since_app. simpl. by rewrite <- app_assoc.
Qed.

(** X8. When the input directory cannot be listed, a batch on ['all'] is
    answered with [500] and the message of the error, and no file is
    touched. *)
Theorem batch_listing_failure body msg s :
  field body "filename" = VStr "all" ->
  readdir X (fs s) (input (DIRS __dirname)) = Rejected msg ->
  let s' := (post_process __dirname X body s).2 in
  (post_process __dirname X body s).1 = Ok tt /\
  since s s' = [Readdir (input (DIRS __dirname)); Respond 500 (Failure msg)] /\
  fs s' = fs s.
Proof. exact (batch_unlisted body msg s). Qed.


End More.

(** ** The configuration endpoint *)

Lemma dirname_absolute segs n :
  Forall (fun seg => plain_segment seg = true) segs ->
  plain_segment n = true ->
  path.dirname (absolute (segs ++ [n])) = absolute segs.
Proof.
  intros Hsegs Hn. pose proof (plain_segment_inv _ Hn) as (Hempty & _ & _ & Hslash).
  assert (Hne : n <> []) by (intros ->; discriminate).
  unfold path.dirname, absolute. rewrite chars_str.
  rewrite ?Ascii.eqb_refl.
  assert (Hrev : existsb (Ascii.eqb path.slash) (rev n) = false) by by rewrite existsb_rev.
  assert (Hseg : forall rest, path.dropSegment (rev n ++ path.slash :: rest)
                              = (path.slash :: rest)%list).
  { intros rest. clear -Hrev. induction (rev n) as [|c l IH]; simpl.
    - by rewrite ?Ascii.eqb_refl.
    - simpl in Hrev. apply orb_false_elim in Hrev as [Hc Hl].
      rewrite Ascii.eqb_sym, Hc. by apply IH. }
  assert (Hnone : path.dropSegment (rev n) = []).
  { clear -Hrev. induction (rev n) as [|c l IH]; simpl; [reflexivity|].
    simpl in Hrev. apply orb_false_elim in Hrev as [Hc Hl].
    rewrite Ascii.eqb_sym, Hc. by apply IH. }
  assert (Hslashes : forall rest, path.dropSlashes (rev n ++ rest) = (rev n ++ rest)%list).
  { intros rest. destruct (rev n) as [|c l] eqn:Hr.
    - apply (f_equal (@rev ascii)) in Hr. rewrite rev_involutive in Hr. simpl in Hr. congruence.
    - simpl. simpl in Hrev. apply orb_false_elim in Hrev as [Hc _].
      by rewrite Ascii.eqb_sym, Hc. }
  destruct segs as [|seg rest].
  - simpl. rewrite <- (app_nil_r (rev n)), Hslashes, app_nil_r, Hnone. reflexivity.
  - rewrite unsplit_snoc by discriminate.
    pose proof (unsplit_nonempty (seg :: rest) ltac:(discriminate) Hsegs) as HU.
    set (U := path.unsplit (seg :: rest)) in *. clearbody U.
    rewrite rev_app_distr. simpl. rewrite <- app_assoc. simpl. rewrite Hslashes, Hseg.
    destruct (rev U) as [|c l] eqn:Hr.
    + exfalso. apply (f_equal (@rev ascii)) in Hr. rewrite rev_involutive in Hr. by apply HU.
    + rewrite <- Hr, rev_involutive. reflexivity.
Qed.

(** X10. Saving the executable path [<dir>/<bin>/<exe>] makes
    [<dir>/models] the models directory, and the reply carries both. *)
Theorem config_derives_models body segs bin exe s :
  Forall (fun seg => plain_segment seg = true) segs ->
  plain_segment bin = true -> plain_segment exe = true ->
  field body "path" = VStr (absolute (segs ++ [bin; exe])) ->
  let s' := (post_config body s).2 in
  (post_config body s).1 = Ok tt /\
  UPSCAYL_BIN s' = VStr (absolute (segs ++ [bin; exe])) /\
  MODELS_PATH s' = absolute (segs ++ [path.chars "models"]) /\
  fs s' = fs s /\
  since s s' = [Respond 200 (Saved (VStr (absolute (segs ++ [bin; exe])))
                               (absolute (segs ++ [path.chars "models"])))].
Proof.
  cbv zeta. intros Hsegs Hbin Hexe Hpath.
  assert (Hbody : js_get body "path" = ret (field body "path")).
  { destruct body; simpl in Hpath; try discriminate; reflexivity. }
  assert (Hmodels : path.join (path.dirname (path.dirname (absolute (segs ++ [bin; exe]))))
                      "models" = absolute (segs ++ [path.chars "models"])).
  { change (segs ++ [bin; exe])%list with (segs ++ [bin] ++ [exe])%list.
    rewrite app_assoc, dirname_absolute; [|apply Forall_app; split; [done|by constructor]|done].
    rewrite dirname_absolute by done.
    by rewrite <- join_absolute. }
  unfold post_config. rewrite Hbody, Hpath.
  unfold bind, ret, modify, get, respond, path_dirname, validateString, bind, ret. simpl.
  rewrite Hmodels. repeat split. by apply since_app.
Qed.


(** X12. A falsy [path] (the empty string, [null], [0], [false]) is ignored
    as an absent one is: nothing changes, and the reply carries the current
    values. *)
Theorem config_with_falsy_path_unchanged body s :
  body <> VUndefined -> body <> VNull ->
  truthy (field body "path") = false ->
  let s' := (post_config body s).2 in
  (post_config body s).1 = Ok tt /\
  UPSCAYL_BIN s' = UPSCAYL_BIN s /\
  MODELS_PATH s' = MODELS_PATH s /\
  fs s' = fs s /\
  since s s' = [Respond 200 (Saved (UPSCAYL_BIN s) (MODELS_PATH s))].
Proof.
  cbv zeta. intros Hu Hn Hfalsy.
  assert (Hbody : js_get body "path" = ret (field body "path")).
  { destruct body; try congruence; reflexivity. }
  unfold post_config. rewrite Hbody.
  unfold bind, ret, modify, get, respond. simpl. rewrite Hfalsy. simpl.
  repeat split. by apply since_app.
Qed.

(** ** The gallery *)

Lemma takeSegment_slashfree l :
  existsb (Ascii.eqb path.slash) (path.takeSegment l) = false.
Proof.
  induction l as [|c l IH]; simpl; [reflexivity|].
  destruct (Ascii.eqb c path.slash) eqn:E; simpl; [reflexivity|].
  by rewrite Ascii.eqb_sym, E.
Qed.

Lemma basename_slashfree f :
  existsb (Ascii.eqb path.slash) (path.chars (path.basename f)) = false.
Proof.
  unfold path.basename. rewrite chars_str, existsb_rev. apply takeSegment_slashfree.
Qed.

Lemma parse_name_slashfree f :
  existsb (Ascii.eqb path.slash) (path.chars (path.parse_name f)) = false.
Proof.
  pose proof (basename_slashfree f) as H. unfold path.parse_name.
  destruct (path.rootedDotDot (path.chars f)); [reflexivity|].
  destruct (path.lastDot _ _ _) as [[|i]|]; rewrite ?chars_str; try done.
  destruct (path.seg_eqb _ _); rewrite chars_str; [done|]. by apply existsb_take.
Qed.

(** The output name [<stem>.jpg] of any file name is one plain segment. *)
Lemma output_name_is_plain f :
  plain_segment (path.chars (path.parse_name f +:+ ".jpg")) = true.
Proof.
  pose proof (parse_name_slashfree f) as Hstem.
  rewrite chars_append. set (stem := path.chars (path.parse_name f)) in *.
  unfold plain_segment.
  assert (Hlen : forall l, (length l < 4)%nat ->
                           path.seg_eqb (stem ++ path.chars ".jpg") l = false).
  { intros l Hl. apply not_true_iff_false. rewrite seg_eqb_eq. intros E.
    apply (f_equal length) in E. rewrite length_app in E. simpl in E. lia. }
  rewrite !Hlen by (simpl; lia). rewrite existsb_app, Hstem. reflexivity.
Qed.

Lemma takeSegment_app l rest :
  existsb (Ascii.eqb path.slash) l = false ->
  path.takeSegment (l ++ path.slash :: rest) = l.
Proof.
  induction l as [|c l IH]; simpl; intros H.
  - by rewrite ?Ascii.eqb_refl.
  - apply orb_false_elim in H as [Hc Hl]. rewrite Ascii.eqb_sym, Hc. by rewrite IH.
Qed.

Lemma basename_absolute segs n :
  plain_segment n = true ->
  path.basename (absolute (segs ++ [n])) = path.str n.
Proof.
  intros Hn. pose proof (plain_segment_inv _ Hn) as (Hempty & _ & _ & Hslash).
  assert (Hne : n <> []) by (intros ->; discriminate).
  assert (Hrev : existsb (Ascii.eqb path.slash) (rev n) = false) by by rewrite existsb_rev.
  assert (Hshape : exists before,
            path.chars (absolute (segs ++ [n])) = (before ++ path.slash :: n)%list).
  { unfold absolute. rewrite chars_str. destruct segs as [|seg rest].
    - exists []. reflexivity.
    - rewrite unsplit_snoc by discriminate.
      exists (path.slash :: path.unsplit (seg :: rest)). reflexivity. }
  destruct Hshape as [before Hshape].
  unfold path.basename. rewrite Hshape, rev_app_distr. simpl. rewrite <- app_assoc. simpl.
  assert (Hdrop : forall rest, path.dropSlashes (rev n ++ rest) = (rev n ++ rest)%list).
  { intros rest. destruct (rev n) as [|c l] eqn:Hr.
    - apply (f_equal (@rev ascii)) in Hr. rewrite rev_involutive in Hr. simpl in Hr. congruence.
    - simpl. simpl in Hrev. apply orb_false_elim in Hrev as [Hc _].
      by rewrite Ascii.eqb_sym, Hc. }
  rewrite Hdrop, takeSegment_app, rev_involutive by done. reflexivity.
Qed.

Lemma jpg_name_matches stem :
  is_output_image (stem +:+ ".jpg") = true /\ is_image (stem +:+ ".jpg") = true.
Proof.
  assert (H : endsWith ".jpg" (stem +:+ ".jpg") = true).
  { apply endsWith_spec. exists (map lower (path.chars stem)).
    rewrite chars_append, map_app. reflexivity. }
  unfold is_output_image, is_image. rewrite H. simpl. by rewrite orb_true_r.
Qed.

Section Gallery.

Variable segs : list (list ascii).
Hypothesis plain_segs : Forall (fun seg => plain_segment seg = true) segs.
Variable X : collaborators.

Lemma finalOutputPath_absolute f :
  finalOutputPath (absolute segs) f
  = absolute (segs ++ [path.chars "output"; path.chars (path.parse_name f +:+ ".jpg")]).
Proof.
  destruct (DIRS_absolute segs plain_segs) as (_ & Eo & _).
  unfold finalOutputPath. rewrite Eo.
  rewrite <- (str_chars (path.parse_name f +:+ ".jpg")) at 1.
  rewrite join_absolute.
  - by rewrite <- app_assoc.
  - apply Forall_app. split; [done|by constructor].
  - apply output_name_is_plain.
Qed.

Lemma complete_event_of_run f settings s :
  let s' := (processImage (absolute segs) X (VStr f) settings s).2 in
  let name := path.parse_name f +:+ ".jpg" in
  successful (since s s') ->
  last (since s s') = Some (Emit (EvComplete (VStr f) ("/output/" +:+ name))) /\
  finalOutputPath (absolute segs) f = path.join (output (DIRS (absolute segs))) name /\
  is_output_image name = true.
Proof.
  cbv zeta. intros Hok.
  destruct (successful_run (absolute segs) X f settings s Hok)
    as (d & buf & bytes & before & _ & _ & Htr & _).
  assert (Hbase : path.basename (finalOutputPath (absolute segs) f)
                  = path.parse_name f +:+ ".jpg").
  { rewrite finalOutputPath_absolute.
    change (segs ++ [path.chars "output"; path.chars (path.parse_name f +:+ ".jpg")])%list
      with (segs ++ [path.chars "output"] ++ [path.chars (path.parse_name f +:+ ".jpg")])%list.
    rewrite app_assoc, basename_absolute by apply output_name_is_plain.
    apply str_chars. }
  split; [|split; [reflexivity|apply jpg_name_matches]].
  rewrite Htr, Hbase.
  rewrite app_comm_cons, !app_assoc. apply last_snoc.
Qed.

(** X13. Under an absolute [__dirname] the [complete] event of a successful
    run links [/output/<stem>.jpg], where [<stem>.jpg] is the name of the
    file written in the output directory and a name the pattern of the
    gallery accepts. *)
Theorem complete_links_to_gallery_name f settings s :
  let s' := (processImage (absolute segs) X (VStr f) settings s).2 in
  let name := path.parse_name f +:+ ".jpg" in
  successful (since s s') ->
  last (since s s') = Some (Emit (EvComplete (VStr f) ("/output/" +:+ name))) /\
  finalOutputPath (absolute segs) f = path.join (output (DIRS (absolute segs))) name /\
  is_output_image name = true.
Proof. exact (complete_event_of_run f settings s). Qed.

End Gallery.

Section Files.

Variable __dirname : string.
Variable X : collaborators.

Lemma entries_of_present names s :
  (forall f, In f names -> is_Some (fs s !! path.join (output (DIRS __dirname)) f)) ->
  exists entries,
    map_m (file_entry __dirname) names s = (Ok entries, s) /\
    map file_name entries = names /\
    Forall (describes __dirname (fs s)) entries.
Proof.
  induction names as [|f names IH]; intros Hall.
  - exists []. by repeat split.
  - destruct (Hall f (or_introl eq_refl)) as [bytes Hf].
    destruct IH as (entries & Hrun & Hnames & Hdesc).
    { intros g Hg. apply Hall. by right. }
    eexists (_ :: entries). split; [|split].
    + simpl. unfold bind at 1. unfold file_entry at 1. unfold bind at 1, statSync_size.
      rewrite Hf. simpl. unfold bind at 1. rewrite Hrun. reflexivity.
    + simpl. by rewrite Hnames.
    + constructor; [|done]. split; [reflexivity|]. by exists bytes.
Qed.

Lemma entries_of_missing names s f :
  In f names -> fs s !! path.join (output (DIRS __dirname)) f = None ->
  exists g, In g names /\
    map_m (file_entry __dirname) names s = (Throw (Enoent "stat" (path.join (output (DIRS __dirname)) g)), s).
Proof.
  induction names as [|h names IH]; intros Hin Hf; [destruct Hin|].
  destruct (fs s !! path.join (output (DIRS __dirname)) h) as [bytes|] eqn:Hh.
  - destruct Hin as [->|Hin]; [congruence|].
    destruct (IH Hin Hf) as (g & Hg & Hrun).
    exists g. split; [by right|].
    simpl. unfold bind at 1. unfold file_entry at 1. unfold bind at 1, statSync_size.
    rewrite Hh. simpl. unfold bind at 1. by rewrite Hrun.
  - exists h. split; [by left|].
    simpl. unfold bind at 1. unfold file_entry at 1. unfold bind at 1, statSync_size.
    by rewrite Hh.
Qed.

Lemma get_files_listing listing s :
  readdir X (fs s) (output (DIRS __dirname)) = Resolved listing ->
  get_files __dirname X s
  = map_m (file_entry __dirname) (List.filter is_output_image listing)
      (record (Readdir (output (DIRS __dirname))) s).
Proof.
  intros Hdir. unfold get_files, readdirSync, bind, modify, get, await. simpl in *.
  rewrite Hdir. reflexivity.
Qed.

Lemma get_files_entries listing s :
  readdir X (fs s) (output (DIRS __dirname)) = Resolved listing ->
  (forall f, In f listing -> is_output_image f = true ->
             is_Some (fs s !! path.join (output (DIRS __dirname)) f)) ->
  exists entries,
    get_files __dirname X s = (Ok entries, record (Readdir (output (DIRS __dirname))) s) /\
    map file_name entries = List.filter is_output_image listing /\
    Forall (describes __dirname (fs s)) entries.
Proof.
  intros Hdir Hall. rewrite (get_files_listing listing) by done.
  apply (entries_of_present (List.filter is_output_image listing)
           (record (Readdir (output (DIRS __dirname))) s)).
  intros f Hf. apply filter_In in Hf as [Hin Himg]. by apply Hall.
Qed.

(** X14. When every image name the output directory lists is a file, the
    gallery has one entry for each listed name the pattern accepts, in the
    order of the listing, each with its link under [/output/] and the size
    of its file; reading the directory is all the request does. *)
Theorem gallery_lists_output_images listing s :
  readdir X (fs s) (output (DIRS __dirname)) = Resolved listing ->
  (forall f, In f listing -> is_output_image f = true ->
             is_Some (fs s !! path.join (output (DIRS __dirname)) f)) ->
  exists entries,
    get_files __dirname X s = (Ok entries, record (Readdir (output (DIRS __dirname))) s) /\
    map file_name entries = List.filter is_output_image listing /\
    Forall (describes __dirname (fs s)) entries.
Proof. exact (get_files_entries listing s). Qed.

(** X15. One listed image name behind which there is no file makes the
    whole gallery request throw [ENOENT]: no partial list is returned. *)
Theorem gallery_fails_as_a_whole listing f s :
  readdir X (fs s) (output (DIRS __dirname)) = Resolved listing ->
  In f listing -> is_output_image f = true ->
  fs s !! path.join (output (DIRS __dirname)) f = None ->
  exists g, In g listing /\ is_output_image g = true /\
    get_files __dirname X s
    = (Throw (Enoent "stat" (path.join (output (DIRS __dirname)) g)),
       record (Readdir (output (DIRS __dirname))) s).
Proof.
  intros Hdir Hin Himg Hf. rewrite (get_files_listing listing) by done.
  destruct (entries_of_missing (List.filter is_output_image listing)
              (record (Readdir (output (DIRS __dirname))) s) f) as (g & Hg & Hrun).
  { apply filter_In. by split. }
  { exact Hf. }
  apply filter_In in Hg as [Hg Hgi]. by exists g.
Qed.

End Files.

(** ** The gallery after a run *)

(** X16. After a successful run, a gallery that lists the written name
    has an entry of that name whose link is the link of the [complete]
    event of the run. *)
Theorem completed_image_in_gallery segs X f settings listing s :
  Forall (fun seg => plain_segment seg = true) segs ->
  let s' := (processImage (absolute segs) X (VStr f) settings s).2 in
  let name := path.parse_name f +:+ ".jpg" in
  successful (since s s') ->
  readdir X (fs s') (output (DIRS (absolute segs))) = Resolved listing ->
  In name listing ->
  (forall g, In g listing -> is_output_image g = true ->
             is_Some (fs s' !! path.join (output (DIRS (absolute segs))) g)) ->
  exists entries e,
    (get_files (absolute segs) X s').1 = Ok entries /\
    In e entries /\ file_name e = name /\
    last (since s s') = Some (Emit (EvComplete (VStr f) (file_url e))).
Proof.
  intros Hsegs. cbv zeta. intros Hok Hdir Hin Hall.
  destruct (complete_event_of_run segs Hsegs X f settings s Hok)
    as (Hlast & _ & Himg).
  destruct (get_files_entries (absolute segs) X listing _ Hdir Hall)
    as (entries & Hrun & Hnames & Hdesc).
  assert (Hname : In (path.parse_name f +:+ ".jpg") (map file_name entries)).
  { rewrite Hnames. apply filter_In. by split. }
  apply in_map_iff in Hname as (e & He & Hine).
  exists entries, e. rewrite Hrun. split; [reflexivity|]. split; [done|]. split; [done|].
  rewrite List.Forall_forall in Hdesc. destruct (Hdesc e Hine) as [Hurl _].
  by rewrite Hurl, He.
Qed.

(** ** Uploads *)

Section Upload.

Variable __dirname : string.

Lemma post_upload_cons file files s :
  post_upload __dirname (file :: files) s
  = match fs s !! file_path file with
    | Some bytes =>
        match post_upload __dirname files
                (with_fs (<[target __dirname file := bytes]> (delete (file_path file) (fs s))) s) with
        | (Ok n, s') => (Ok (S n), s')
        | (Throw e, s') => (Throw e, s')
        | (Unsettled, s') => (Unsettled, s')
        end
    | None => (Throw (Enoent "rename" (file_path file +:+ "' -> '" +:+ target __dirname file)), s)
    end.
Proof.
  unfold post_upload. simpl. unfold bind, renameSync, target, ret.
  destruct (fs s !! file_path file); [|reflexivity].
  by destruct (for_of files _ _) as [[[]|e|] s'].
Qed.

Lemma post_upload_moves files s :
  List.NoDup (map file_path files) ->
  (forall x, In x files -> is_Some (fs s !! file_path x)) ->
  (forall x y, In x files -> In y files -> file_path x <> target __dirname y) ->
  let s' := (post_upload __dirname files s).2 in
  (post_upload __dirname files s).1 = Ok (length files) /\
  (forall x, In x files -> fs s' !! file_path x = None) /\
  (forall before x after, files = (before ++ x :: after)%list ->
     (forall y, In y after -> target __dirname y <> target __dirname x) ->
     fs s' !! target __dirname x = fs s !! file_path x) /\
  (forall p, (forall x, In x files -> p <> file_path x /\ p <> target __dirname x) ->
     fs s' !! p = fs s !! p) /\
  trace s' = trace s /\ UPSCAYL_BIN s' = UPSCAYL_BIN s /\ MODELS_PATH s' = MODELS_PATH s.
Proof.
  cbv zeta. revert s. induction files as [|x files IH]; intros s Hnd Hsrc Hapart.
  - split; [reflexivity|]. split; [intros ? []|]. split; [|by repeat split].
    intros [|] ? ? E; discriminate.
  - rewrite post_upload_cons.
    destruct (Hsrc x (or_introl eq_refl)) as [bytes Hx]. rewrite Hx.
    set (s1 := with_fs (<[target __dirname x := bytes]> (delete (file_path x) (fs s))) s).
    simpl in Hnd. apply List.NoDup_cons_iff in Hnd as [Hfresh Hnd].
    assert (Hxt : file_path x <> target __dirname x) by (apply Hapart; by left).
    assert (Hkeep : forall p, p <> file_path x -> p <> target __dirname x -> fs s1 !! p = fs s !! p).
    { intros p Hp Hq. simpl. rewrite lookup_insert_ne by done. by rewrite lookup_delete_ne. }
    assert (Hother : forall y, In y files -> file_path y <> file_path x).
    { intros y Hy E. apply Hfresh. rewrite <- E. by apply in_map. }
    destruct (IH s1) as (Hres & Hgone & Hlast & Hrest & Htr & Hbin & Hmod).
    { exact Hnd. }
    { intros y Hy. rewrite Hkeep; [apply Hsrc; by right|by apply Hother|].
      apply Hapart; [by right|by left]. }
    { intros y z Hy Hz. apply Hapart; by right. }
    destruct (post_upload __dirname files s1) as [[n|e|] s'] eqn:Hrun; simpl in *;
      try discriminate.
    injection Hres as ->.
    split; [reflexivity|]. split; [|split; [|split]].
    + intros y [<-|Hy]; [|by apply Hgone].
      rewrite Hrest.
      * rewrite lookup_insert_ne by done. apply lookup_delete_eq.
      * intros z Hz. split; [intros E; by apply (Hother z)|].
        apply Hapart; [by left|by right].
    + intros [|x' before] y after E Hafter; simpl in E; injection E as <- ->.
      * rewrite Hrest.
        -- rewrite lookup_insert_eq. by rewrite Hx.
        -- intros z Hz. split; [|intros E; by apply (Hafter z)].
           intros E. apply (Hapart z x); [by right|by left|done].
      * assert (Hy : In y (before ++ y :: after)) by (apply in_elt).
        rewrite (Hlast before y after eq_refl Hafter). apply Hkeep; [by apply Hother|].
        apply Hapart; [by right|by left].
    + intros p Hp. rewrite Hrest.
      * destruct (Hp x (or_introl eq_refl)). by apply Hkeep.
      * intros z Hz. apply Hp. by right.
    + done.
Qed.

(** X17. An upload of files that are on disk, under distinct stored
    paths none of which is a target, returns the number of files; every
    stored path is gone; each target __dirname holds the contents of the last file
    uploaded under that name; every other path, the configuration and the
    trace are as before. *)
Theorem upload_moves_files files s :
  List.NoDup (map file_path files) ->
  (forall x, In x files -> is_Some (fs s !! file_path x)) ->
  (forall x y, In x files -> In y files -> file_path x <> target __dirname y) ->
  let s' := (post_upload __dirname files s).2 in
  (post_upload __dirname files s).1 = Ok (length files) /\
  (forall x, In x files -> fs s' !! file_path x = None) /\
  (forall before x after, files = (before ++ x :: after)%list ->
     (forall y, In y after -> target __dirname y <> target __dirname x) ->
     fs s' !! target __dirname x = fs s !! file_path x) /\
  (forall p, (forall x, In x files -> p <> file_path x /\ p <> target __dirname x) ->
     fs s' !! p = fs s !! p) /\
  trace s' = trace s /\ UPSCAYL_BIN s' = UPSCAYL_BIN s /\ MODELS_PATH s' = MODELS_PATH s.
Proof. exact (post_upload_moves files s). Qed.

(** X18. A file that is not where multer says it stored it stops the
    upload with [ENOENT]: no count is returned, and the files before it
    stay moved. *)
Theorem upload_stops_at_missing_file before file after s :
  List.NoDup (map file_path before) ->
  (forall x, In x before -> is_Some (fs s !! file_path x)) ->
  (forall x y, In x before -> In y before -> file_path x <> target __dirname y) ->
  fs s !! file_path file = None ->
  (forall y, In y before -> file_path file <> target __dirname y) ->
  let s' := (post_upload __dirname (before ++ file :: after) s).2 in
  (post_upload __dirname (before ++ file :: after) s).1
  = Throw (Enoent "rename" (file_path file +:+ "' -> '" +:+ target __dirname file)) /\
  s' = (post_upload __dirname before s).2 /\
  (forall x, In x before -> fs s' !! file_path x = None).
Proof.
  cbv zeta. intros Hnd Hsrc Hapart Hfile Hfresh.
  assert (Hrun : post_upload __dirname (before ++ file :: after) s
                 = (Throw (Enoent "rename" (file_path file +:+ "' -> '" +:+ target __dirname file)),
                    (post_upload __dirname before s).2)).
  { revert s Hnd Hsrc Hapart Hfile Hfresh.
    induction before as [|x before IH]; intros s Hnd Hsrc Hapart Hfile Hfresh.
    - simpl app. by rewrite post_upload_cons, Hfile.
    - simpl app. rewrite !post_upload_cons.
      destruct (Hsrc x (or_introl eq_refl)) as [bytes Hx]. rewrite Hx.
      simpl in Hnd. apply List.NoDup_cons_iff in Hnd as [Hnew Hnd].
      set (s1 := with_fs (<[target __dirname x := bytes]> (delete (file_path x) (fs s))) s).
      rewrite (IH s1).
      + by destruct (post_upload __dirname before s1) as [[n|e|] s2].
      + exact Hnd.
      + intros y Hy. simpl. rewrite lookup_insert_ne by (apply not_eq_sym, Hapart; [by right|by left]).
        rewrite lookup_delete_ne; [apply Hsrc; by right|].
        intros E. apply Hnew. rewrite E. by apply in_map.
      + intros y z Hy Hz. apply Hapart; by right.
      + simpl. rewrite lookup_insert_ne by (apply not_eq_sym, Hfresh; by left).
        destruct (decide (file_path x = file_path file)) as [->|Hne];
          [apply lookup_delete_eq|by rewrite lookup_delete_ne].
      + intros y Hy. apply Hfresh. by right. }
  rewrite Hrun. split; [reflexivity|]. split; [reflexivity|].
  apply (post_upload_moves before s Hnd Hsrc Hapart).
Qed.

End Upload.

(** ** The page *)

Lemma shown_app evs1 evs2 v : shown (evs1 ++ evs2) v = shown evs2 (shown evs1 v).
Proof. apply foldl_app. Qed.

Lemma shown_steps f steps v :
  Forall (is_step_of (VStr f)) steps ->
  statusColor (shown steps v) = statusColor v /\
  galleryLoads (shown steps v) = galleryLoads v /\
  pendingResets (shown steps v) = pendingResets v /\
  (barWidth (shown steps v) = barWidth v \/
   barWidth (shown steps v) = "40%" \/ barWidth (shown steps v) = "70%").
Proof.
  intros Hsteps. revert v. induction Hsteps as [|e steps [msg ->] _ IH]; intros v.
  - by repeat split; try left.
  - change (shown (EvStep (VStr f) msg :: steps) v)
      with (shown steps (on_progress (EvStep (VStr f) msg) v)).
    destruct (IH (on_progress (EvStep (VStr f) msg) v)) as (Hc & Hg & Hp & Hb).
    rewrite Hc, Hg, Hp. split; [reflexivity|]. split; [reflexivity|].
    split; [reflexivity|].
    destruct Hb as [Hb|Hb]; [|by right].
    rewrite Hb. simpl. destruct (includes "Optimizing" msg); [by right; right|].
    destruct (includes "Upscaling" msg); [by right; left|by left].
Qed.

Lemma last_event t p : last t = Some (Emit p) -> last (events t) = Some p.
Proof.
  intros H. destruct (last_Some t (Emit p)) as [[t' ->] _]; [done|].
  rewrite events_app. simpl. apply last_snoc.
Qed.

(** A run whose last effect is an event has the events of a complete run,
    that event being the terminal one. *)
Lemma terminal_of_run __dirname X f settings s term :
  let s' := (processImage __dirname X (VStr f) settings s).2 in
  last (since s s') = Some (Emit term) ->
  exists steps,
    events (since s s') = (EvStart (VStr f) :: steps ++ [term])%list /\
    Forall (is_step_of (VStr f)) steps /\
    is_terminal_of (VStr f) term.
Proof.
  cbv zeta. intros Hlast.
  pose proof (run_protocol __dirname X f settings s) as Hrun. cbv zeta in Hrun.
  destruct Hrun as [(_ & steps & term' & Hev & Hsteps & Hterm)|(_ & _ & b & a & Hspawn)].
  - apply last_event in Hlast. rewrite Hev, app_comm_cons, last_snoc in Hlast.
    injection Hlast as ->. eauto.
  - rewrite Hspawn in Hlast. discriminate.
Qed.

(** The page after the events of a complete run that no reset interrupts. *)
Lemma shown_run f steps term v :
  Forall (is_step_of (VStr f)) steps ->
  let v' := shown (EvStart (VStr f) :: steps ++ [term]) v in
  (forall out, term = EvComplete (VStr f) out ->
   progressHidden v' = false /\
   statusText v' = "Completed " +:+ f /\ barWidth v' = "100%" /\
   galleryLoads v' = S (galleryLoads v) /\ pendingResets v' = S (pendingResets v) /\
   statusColor v' = statusColor v) /\
  (forall file msg, term = EvError file msg ->
   progressHidden v' = false /\
   statusText v' = "Error: " +:+ msg /\ statusColor v' = "#ef4444" /\
   galleryLoads v' = galleryLoads v /\ pendingResets v' = pendingResets v /\
   (barWidth v' = "10%" \/ barWidth v' = "40%" \/ barWidth v' = "70%")).
Proof.
  intros Hsteps. cbv zeta.
  change (EvStart (VStr f) :: steps ++ [term])%list
    with ([EvStart (VStr f)] ++ steps ++ [term])%list.
  rewrite !shown_app.
  set (v0 := shown [EvStart (VStr f)] v).
  destruct (shown_steps f steps v0 Hsteps) as (Hc & Hg & Hp & Hb).
  set (v1 := shown steps v0) in *.
  split.
  - intros out ->. simpl. by rewrite Hc, Hg, Hp.
  - intros file msg ->. simpl. rewrite Hg, Hp.
    split; [reflexivity|]. split; [reflexivity|]. split; [reflexivity|].
    split; [reflexivity|]. split; [reflexivity|].
    destruct Hb as [Hb|Hb]; [left|right]; exact Hb.
Qed.

Lemma displayed_quiet evs v : displayed (map Arrives evs) v = Some (shown evs v).
Proof. revert v. induction evs as [|e evs IH]; intros v; [reflexivity|]. apply IH. Qed.

Lemma displayed_app hs1 hs2 v :
  displayed (hs1 ++ hs2) v
  = match displayed hs1 v with Some w => displayed hs2 w | None => None end.
Proof.
  revert v. induction hs1 as [|[d|] hs1 IH]; intros v; simpl; [reflexivity|apply IH|].
  destruct (pendingResets v); [reflexivity|apply IH].
Qed.

Lemma same_status_on_progress d v w :
  same_status v w -> same_status (on_progress d v) (on_progress d w).
Proof.
  intros (Hh & Ht & Hc & Hg). unfold same_status.
  destruct d as [file|file msg|file out|file msg]; simpl;
    try destruct (to_string file); simpl; rewrite ?Ht, ?Hc, ?Hg; auto.
Qed.

(** A reset touches nothing but the bar: status, colour and reloads after
    any happenings are those of the events alone. *)
Lemma displayed_same_status hs v w v' :
  same_status v w -> displayed hs v = Some v' ->
  same_status v' (shown (arrivals hs) w).
Proof.
  revert v w. induction hs as [|[d|] hs IH]; intros v w Hvw Hd; simpl in *.
  - by injection Hd as <-.
  - apply (IH (on_progress d v)); [by apply same_status_on_progress|done].
  - destruct (pendingResets v); [discriminate|].
    apply (IH (reset_bar v)); [|done].
    destruct Hvw as (Hh & Ht & Hc & Hg). by repeat split.
Qed.

Lemma arrivals_app hs1 hs2 : arrivals (hs1 ++ hs2) = (arrivals hs1 ++ arrivals hs2)%list.
Proof. apply omap_app. Qed.

Lemma arrivals_snoc_inv hs evs e :
  arrivals hs = (evs ++ [e])%list ->
  exists pre post,
    hs = (pre ++ Arrives e :: post)%list /\ arrivals pre = evs /\ arrivals post = [].
Proof.
  induction hs as [|h hs IH] using rev_ind; intros H.
  - by destruct evs.
  - rewrite arrivals_app in H. destruct h as [d|]; simpl in H.
    + apply app_inj_tail in H as [Hpre ->]. by exists hs, [].
    + rewrite app_nil_r in H. destruct (IH H) as (pre & post & -> & Hpre & Hpost).
      exists pre, (post ++ [Fires])%list. rewrite <- app_assoc. split; [reflexivity|].
      split; [done|]. rewrite arrivals_app, Hpost. reflexivity.
Qed.

Lemma arrivals_cons_inv hs e evs :
  arrivals hs = e :: evs ->
  exists pre post,
    hs = (pre ++ Arrives e :: post)%list /\ arrivals pre = [] /\ arrivals post = evs.
Proof.
  induction hs as [|[d|] hs IH]; intros H; simpl in H; [discriminate| |].
  - injection H as -> <-. by exists [], hs.
  - destruct (IH H) as (pre & post & -> & Hpre & Hpost).
    by exists (Fires :: pre), post.
Qed.

(** Resets alone leave the bar where it is or at 0%. *)
Lemma resets_only hs w v' :
  arrivals hs = [] -> displayed hs w = Some v' ->
  barWidth v' = barWidth w \/ barWidth v' = "0%".
Proof.
  revert w. induction hs as [|[d|] hs IH]; intros w Harr Hd; simpl in *.
  - injection Hd as <-. by left.
  - discriminate.
  - destruct (pendingResets w); [discriminate|].
    destruct (IH _ Harr Hd) as [->| ->]; by right.
Qed.

(** Steps and resets keep a stalled bar stalled. *)
Lemma steps_keep_stalled f hs w v' :
  Forall (is_step_of (VStr f)) (arrivals hs) -> stalled (barWidth w) ->
  displayed hs w = Some v' -> stalled (barWidth v').
Proof.
  revert w. induction hs as [|[d|] hs IH]; intros w Hsteps Hw Hd; simpl in *.
  - by injection Hd as <-.
  - apply Forall_cons in Hsteps as [[msg ->] Hsteps].
    apply (IH _ Hsteps) in Hd; [done|]. simpl. unfold stalled.
    destruct (includes "Optimizing" msg); [by do 3 right|].
    destruct (includes "Upscaling" msg); [by right; right; left|exact Hw].
  - destruct (pendingResets w); [discriminate|].
    apply (IH _ Hsteps) in Hd; [done|]. by left.
Qed.

(** The bar after [start], steps, and any resets among them. *)
Lemma started_is_stalled f steps hs v v' :
  Forall (is_step_of (VStr f)) steps ->
  arrivals hs = EvStart (VStr f) :: steps ->
  displayed hs v = Some v' -> stalled (barWidth v').
Proof.
  intros Hsteps Harr Hd.
  apply arrivals_cons_inv in Harr as (pre & post & -> & _ & Hpost).
  rewrite displayed_app in Hd.
  destruct (displayed pre v) as [w|]; [|discriminate].
  change (displayed (Arrives (EvStart (VStr f)) :: post) w)
    with (displayed post (on_progress (EvStart (VStr f)) w)) in Hd.
  apply (steps_keep_stalled f post (on_progress (EvStart (VStr f)) w) v');
    [by rewrite Hpost| |exact Hd].
  simpl. by right; left.
Qed.

(** X19. The page after one run, whatever resets of the bar, pending from
    earlier completions, fire before, during or after its events.  After a
    successful run the status reads [Completed <file>], one gallery reload
    has been asked for, the colour of the status is untouched, and the bar
    is at 100%, or at 0% once a reset has fired after the [complete]; after
    a failed run the status reads [Error: <message>] in red, no reload has
    been asked for, and the bar is at 10%, 40% or 70%, or at 0% where a
    reset has fired.  Where no reset fires, the bar is at 100% with one
    reset scheduled after a successful run, and at 10%, 40% or 70% with
    none scheduled after a failed one. *)
Theorem page_after_run __dirname X f settings s hs v v' :
  let s' := (processImage __dirname X (VStr f) settings s).2 in
  arrivals hs = events (since s s') ->
  displayed hs v = Some v' ->
  (successful (since s s') ->
   progressHidden v' = false /\
   statusText v' = "Completed " +:+ f /\
   galleryLoads v' = S (galleryLoads v) /\
   statusColor v' = statusColor v /\
   (barWidth v' = "100%" \/ barWidth v' = "0%") /\
   (hs = map Arrives (events (since s s')) ->
    barWidth v' = "100%" /\ pendingResets v' = S (pendingResets v))) /\
  (forall msg, last (since s s') = Some (Emit (EvError (VStr f) msg)) ->
   progressHidden v' = false /\
   statusText v' = "Error: " +:+ msg /\
   statusColor v' = "#ef4444" /\
   galleryLoads v' = galleryLoads v /\
   stalled (barWidth v') /\
   (hs = map Arrives (events (since s s')) ->
    (barWidth v' = "10%" \/ barWidth v' = "40%" \/ barWidth v' = "70%") /\
    pendingResets v' = pendingResets v)).
Proof.
  cbv zeta. intros Harr Hd.
  assert (Hrefl : same_status v v) by by repeat split.
  destruct (displayed_same_status hs v v v' Hrefl Hd) as (Hh & Ht & Hc & Hg).
  rewrite Harr in Hh, Ht, Hc, Hg.
  split.
  - intros (file & out & Hlast).
    destruct (terminal_of_run __dirname X f settings s _ Hlast) as (steps & Hev & Hsteps & Hterm).
    destruct Hterm as [[out' E]|[msg E]]; [injection E as -> <-|discriminate].
    rewrite Hev in *.
    destruct (shown_run f steps (EvComplete (VStr f) out) v Hsteps) as [Hdone _].
    destruct (Hdone out eq_refl) as (H1 & H2 & H3 & H4 & H5 & H6).
    rewrite Hh, Ht, Hc, Hg.
    split; [exact H1|]. split; [exact H2|]. split; [exact H4|]. split; [exact H6|].
    split.
    + rewrite app_comm_cons in Harr.
      apply arrivals_snoc_inv in Harr as (pre & post & -> & _ & Hpost).
      rewrite displayed_app in Hd.
      destruct (displayed pre v) as [w|]; [|discriminate]. simpl in Hd.
      destruct (resets_only post _ v' Hpost Hd) as [->| ->]; [by left|by right].
    + intros ->. rewrite displayed_quiet in Hd. injection Hd as <-. by split.
  - intros msg Hlast.
    destruct (terminal_of_run __dirname X f settings s _ Hlast) as (steps & Hev & Hsteps & _).
    rewrite Hev in *.
    destruct (shown_run f steps (EvError (VStr f) msg) v Hsteps) as [_ Hfail].
    destruct (Hfail _ msg eq_refl) as (H1 & H2 & H3 & H4 & H5 & H6).
    rewrite Hh, Ht, Hc, Hg.
    split; [exact H1|]. split; [exact H2|]. split; [exact H3|]. split; [exact H4|].
    split.
    + rewrite app_comm_cons in Harr.
      apply arrivals_snoc_inv in Harr as (pre & post & -> & Hpre & Hpost).
      rewrite displayed_app in Hd.
      destruct (displayed pre v) as [w|] eqn:Hw; [|discriminate]. simpl in Hd.
      pose proof (started_is_stalled f steps pre v w Hsteps Hpre Hw) as Hstalled.
      destruct (resets_only post _ v' Hpost Hd) as [->| ->]; [exact Hstalled|by left].
    + intros ->. rewrite displayed_quiet in Hd. injection Hd as <-. by split.
Qed.

(** X20. Once an [error] event has been shown the status line stays red,
    whatever events follow: nothing sets the colour back. *)
Theorem error_colour_sticks evs1 file msg evs2 v :
  statusColor (shown (evs1 ++ EvError file msg :: evs2) v) = "#ef4444".
Proof.
  rewrite shown_app.
  change (shown (EvError file msg :: evs2) (shown evs1 v))
    with (shown evs2 (on_progress (EvError file msg) (shown evs1 v))).
  assert (H : forall evs w, statusColor w = "#ef4444" -> statusColor (shown evs w) = "#ef4444").
  { induction evs as [|e evs IH]; intros w Hw; [done|].
    change (shown (e :: evs) w) with (shown evs (on_progress e w)).
    apply IH. destruct e as [f|f m|f o|f m]; simpl; try destruct (to_string f); done. }
  by apply H.
Qed.

(** ** The page and the server *)

Section PageAndServer.

Variable __dirname : string.
Variable X : collaborators.

Lemma run_never_responds f settings s code r :
  ~ In (Respond code r) (since s (processImage __dirname X (VStr f) settings s).2).
Proof. intros Hin. run_cases __dirname X f settings s; trace_cases Hin. Qed.

(** A run that asks for no child returns. *)
Lemma run_without_child_returns f settings s :
  (forall b a, ~ In (Spawn b a) (since s (processImage __dirname X (VStr f) settings s).2)) ->
  (processImage __dirname X (VStr f) settings s).1 = Ok tt.
Proof.
  intros Hno. pose proof (run_protocol __dirname X f settings s) as Hrun.
  cbv zeta in Hrun. destruct Hrun as [[Hr _]|(_ & _ & b & a & Hlast)]; [exact Hr|].
  destruct (Hno b a).
  destruct (last_Some (since s (processImage __dirname X (VStr f) settings s).2)
              (Spawn b a)) as [[t Ht] _]; [exact Hlast|].
  rewrite Ht. apply in_elt.
Qed.

Lemma all_return_without_upscale settings files s :
  settings <> VUndefined -> settings <> VNull ->
  truthy (field settings "upscale") = false ->
  all_return __dirname X settings files s = true.
Proof.
  intros Hu Hn Hoff. revert s. induction files as [|f files IH]; intros s; simpl;
    [reflexivity|].
  destruct (upscale_off_run __dirname X f settings s Hu Hn Hoff) as (Hno & _).
  apply run_without_child_returns in Hno.
  destruct (processImage __dirname X (VStr f) settings s) as [r s1].
  simpl in Hno. subst r. apply IH.
Qed.

(** X21. The request [startProcessing] sends is always answered, and
    answered once: the handler never throws, the reply follows the listing
    of the input directory, and no second reply is attempted, whether the
    handler returns or, a child having failed to start, does not get
    further.  With the checkbox off the handler returns, and no child is
    asked for during the whole batch. *)
Theorem page_request_is_answered checked model s :
  let body := process_request checked model in
  let done := post_process __dirname X body s in
  let s' := done.2 in
  (done.1 = Ok tt \/ done.1 = Unsettled) /\
  (exists code r rest,
     since s s' = ([Readdir (input (DIRS __dirname)); Respond code r] ++ rest)%list /\
     forall code' r', ~ In (Respond code' r') rest) /\
  (checked = false -> done.1 = Ok tt /\ forall b a, ~ In (Spawn b a) (since s s')).
Proof.
  cbv zeta. set (body := process_request checked model).
  assert (Hname : field body "filename" = VStr "all") by reflexivity.
  destruct (readdir X (fs s) (input (DIRS __dirname))) as [listing|msg] eqn:Hdir.
  - destruct (batch_listing __dirname X body listing s Hname Hdir) as (Hrun & Hsince).
    rewrite Hrun. cbn [fst snd]. set (replied := record _ _) in *.
    set (settings := field body "settings") in *.
    assert (Hrest : forall e,
              In e (since replied (in_turn __dirname X settings
                                     (List.filter is_image listing) replied)) ->
              (forall code r, e <> Respond code r) /\
              (checked = false -> forall b a, e <> Spawn b a)).
    { intros e He. apply in_turn_effect in He as (before & f & after & _ & He). split.
      - intros code r ->. by apply run_never_responds in He.
      - intros -> b a ->.
        destruct (upscale_off_run __dirname X f settings
                    (in_turn __dirname X settings before replied)) as (Hno & _);
          try discriminate; [reflexivity|].
        by apply (Hno b a). }
    split; [destruct (all_return _ _ _ _ _); auto|]. split.
    + eexists _, _, _. split; [exact Hsince|].
      intros code r Hin. by apply (proj1 (Hrest _ Hin) code r).
    + intros Hoff. split.
      * rewrite all_return_without_upscale; [reflexivity|discriminate|discriminate|].
        subst settings body. by rewrite Hoff.
      * intros b a Hin. rewrite Hsince in Hin.
        destruct Hin as [Hin|[Hin|Hin]]; try discriminate.
        by apply (proj2 (Hrest _ Hin) Hoff b a).
  - destruct (batch_unlisted __dirname X body msg s Hname Hdir) as (Hres & Hsince & _).
    split; [by left|]. split.
    + exists 500, (Failure msg), []. split; [exact Hsince|]. intros ? ? [].
    + intros _. split; [exact Hres|]. intros b a Hin. rewrite Hsince in Hin.
      destruct Hin as [Hin|[Hin|[]]]; discriminate.
Qed.

End PageAndServer.

(** X22. A path saved from the settings dialog comes back: the request is
    accepted, and the next [GET /api/config] makes the dialog show the same
    path, with [upscaylAvailable] telling whether a file is at that path. *)
Theorem saved_path_round_trip p body s :
  save_request p = Some body ->
  let s' := (post_config body s).2 in
  (post_config body s).1 = Ok tt /\
  UPSCAYL_BIN s' = VStr p /\
  MODELS_PATH s' = path.join (path.dirname (path.dirname p)) "models" /\
  exists view,
    get_config s' = (Ok view, s') /\
    shown_path view = Some p /\
    (upscaylAvailable view = true <-> is_Some (fs s !! p)).
Proof.
  unfold save_request. destruct (truthy (VStr p)) eqn:Hp; [|discriminate].
  intros [= <-]. cbv zeta. simpl in Hp.
  unfold post_config, js_get, field. simpl getOwn.
  unfold bind, ret, modify, get, respond, path_dirname, validateString, bind, ret. simpl.
  rewrite Hp. simpl.
  split; [reflexivity|]. split; [reflexivity|]. split; [reflexivity|].
  eexists. split; [reflexivity|]. split.
  - unfold shown_path, js_or. simpl. by rewrite Hp.
  - simpl. apply bool_decide_eq_true.
Qed.

(** ** The further theorems at work on the demo installation *)

Lemma failed_run_keeps_files_witness :
  let s' := (processImage demo_root lab (VStr "ghost.png") without_upscale
               demo_unconfigured).2 in
  (forall p, ~ In (Unlink p) (since demo_unconfigured s')) /\
  fs s' = fs demo_unconfigured.
Proof.
  cbv zeta.
  pose proof (failed_run_keeps_files demo_root lab "ghost.png" without_upscale
                demo_unconfigured) as H.
  cbv zeta in H.
  assert (H1 : exists msg,
             last (since demo_unconfigured
                     (processImage demo_root lab (VStr "ghost.png") without_upscale
                        demo_unconfigured).2)
             = Some (Emit (EvError (VStr "ghost.png") msg))).
  { exists "Input file is missing: /srv/app/input/ghost.png". by_computation. }
  destruct (H H1) as (Hno & _ & Hsame & _).
  split; [exact Hno|]. apply Hsame.
  intros b a Hin. vm_compute in Hin. intuition discriminate.
Defined.

Lemma run_without_settings_witness :
  (processImage demo_root lab (VStr "a.png") VUndefined demo_unconfigured).1 = Ok tt /\
  fs (processImage demo_root lab (VStr "a.png") VUndefined demo_unconfigured).2
  = fs demo_unconfigured.
Proof.
  pose proof (run_without_settings demo_root lab "a.png" VUndefined demo_unconfigured) as H.
  cbv zeta in H.
  assert (H1 : VUndefined = VUndefined \/ VUndefined = VNull) by (left; reflexivity).
  destruct (H H1) as (Hok & _ & Hfs). split; [exact Hok|exact Hfs].
Defined.

Lemma run_without_upscale_witness :
  exists rest,
    since demo_configured
      (processImage demo_root lab (VStr "a.png") without_upscale demo_configured).2
    = ([Emit (EvStart (VStr "a.png"));
        Emit (EvStep (VStr "a.png") "Optimizing & Tagging...");
        Metadata (inputPath demo_root "a.png")] ++ rest)%list.
Proof.
  pose proof (run_without_upscale demo_root lab "a.png" without_upscale demo_configured) as H.
  cbv zeta in H.
  assert (H1 : without_upscale <> VUndefined) by discriminate.
  assert (H2 : without_upscale <> VNull) by discriminate.
  assert (H3 : truthy (field without_upscale "upscale") = false) by reflexivity.
  destruct (H H1 H2 H3) as (_ & Hstart & _). exact Hstart.
Defined.

Lemma run_with_upscale_witness :
  events (since demo_configured
            (processImage demo_root lab (VStr "a.png") with_upscale demo_configured).2)
  = [EvStart (VStr "a.png");
     EvStep (VStr "a.png") "Upscaling...";
     EvStep (VStr "a.png") "Optimizing & Tagging...";
     EvComplete (VStr "a.png")
       ("/output/" +:+ path.basename (finalOutputPath demo_root "a.png"))].
Proof.
  pose proof (run_with_upscale demo_root lab "a.png" with_upscale demo_configured demo_bin
                (<["/srv/app/temp/a.png" := "4x(A)"]> demo_disk)) as H.
  cbv zeta in H.
  assert (H1 : truthy (field with_upscale "upscale") = true) by reflexivity.
  assert (H2 : UPSCAYL_BIN demo_configured = VStr demo_bin) by reflexivity.
  assert (H3 : is_Some (fs demo_configured !! demo_bin)) by (exists "ELF"; by_computation).
  assert (H4 : joined " " (argv (inputPath demo_root "a.png")
                             (tempUpscaledPath demo_root "a.png")
                             (MODELS_PATH demo_configured) with_upscale) <> None)
    by by_computation.
  assert (H5 : spawn_check lab demo_bin
                 (argv (inputPath demo_root "a.png") (tempUpscaledPath demo_root "a.png")
                    (MODELS_PATH demo_configured) with_upscale) = None)
    by by_computation.
  assert (H6 : upscayl lab demo_bin
                 (argv (inputPath demo_root "a.png") (tempUpscaledPath demo_root "a.png")
                    (MODELS_PATH demo_configured) with_upscale)
                 (fs demo_configured)
               = (Closed (Some 0), <["/srv/app/temp/a.png" := "4x(A)"]> demo_disk))
    by by_computation.
  destruct (H H1 H2 H3 H4 H5 H6) as (_ & _ & _ & Hdone).
  apply (Hdone tt "srgb(4x(A))" "jpeg(srgb(4x(A)),Akhlaque,a.png)"); by_computation.
Defined.


Lemma batch_without_name_fails_late_witness :
  (post_process demo_root lab (VObj [("settings", without_upscale)]) demo_unconfigured).1
  = Throw HeadersSent.
Proof.
  pose proof (batch_without_name_fails_late demo_root lab
                (VObj [("settings", without_upscale)]) demo_unconfigured) as H.
  cbv zeta in H.
  assert (H1 : VObj [("settings", without_upscale)] <> VUndefined) by discriminate.
  assert (H2 : VObj [("settings", without_upscale)] <> VNull) by discriminate.
  assert (H3 : forall f, field (VObj [("settings", without_upscale)]) "filename" <> VStr f)
    by (intros f; vm_compute; discriminate).
  destruct (H H1 H2 H3) as (Hres & _). exact Hres.
Defined.

Lemma batch_listing_failure_witness :
  (post_process demo_root lab_unreadable demo_batch demo_unconfigured).1 = Ok tt /\
  fs (post_process demo_root lab_unreadable demo_batch demo_unconfigured).2
  = fs demo_unconfigured.
Proof.
  pose proof (batch_listing_failure demo_root lab_unreadable demo_batch
                "ENOENT: no such file or directory, scandir '/srv/app/input'"
                demo_unconfigured) as H.
  cbv zeta in H.
  assert (H1 : field demo_batch "filename" = VStr "all") by reflexivity.
  assert (H2 : readdir lab_unreadable (fs demo_unconfigured) (input (DIRS demo_root))
               = Rejected "ENOENT: no such file or directory, scandir '/srv/app/input'")
    by by_computation.
  destruct (H H1 H2) as (Hres & _ & Hfs). split; [exact Hres|exact Hfs].
Defined.


Lemma config_derives_models_witness :
  MODELS_PATH (post_config (VObj [("path", VStr demo_bin)]) demo_unconfigured).2
  = absolute (demo_bin_segs ++ [path.chars "models"]).
Proof.
  pose proof (config_derives_models (VObj [("path", VStr demo_bin)]) demo_bin_segs
                (path.chars "bin") (path.chars "upscayl-bin") demo_unconfigured) as H.
  cbv zeta in H.
  assert (H1 : Forall (fun seg => plain_segment seg = true) demo_bin_segs)
    by (repeat constructor).
  assert (H2 : plain_segment (path.chars "bin") = true) by reflexivity.
  assert (H3 : plain_segment (path.chars "upscayl-bin") = true) by reflexivity.
  assert (H4 : field (VObj [("path", VStr demo_bin)]) "path"
               = VStr (absolute (demo_bin_segs
                                   ++ [path.chars "bin"; path.chars "upscayl-bin"])))
    by by_computation.
  destruct (H H1 H2 H3 H4) as (_ & _ & Hmodels & _). exact Hmodels.
Defined.


Lemma config_with_falsy_path_unchanged_witness :
  UPSCAYL_BIN (post_config (VObj [("path", VStr EmptyString)]) demo_configured).2
  = UPSCAYL_BIN demo_configured.
Proof.
  pose proof (config_with_falsy_path_unchanged (VObj [("path", VStr EmptyString)])
                demo_configured) as H.
  cbv zeta in H.
  assert (H1 : VObj [("path", VStr EmptyString)] <> VUndefined) by discriminate.
  assert (H2 : VObj [("path", VStr EmptyString)] <> VNull) by discriminate.
  assert (H3 : truthy (field (VObj [("path", VStr EmptyString)]) "path") = false)
    by reflexivity.
  destruct (H H1 H2 H3) as (_ & Hbin & _). exact Hbin.
Defined.

Lemma complete_links_to_gallery_name_witness :
  last (since demo_unconfigured
          (processImage (absolute demo_segs) lab (VStr "b.JPG") without_upscale
             demo_unconfigured).2)
  = Some (Emit (EvComplete (VStr "b.JPG") ("/output/" +:+ path.parse_name "b.JPG" +:+ ".jpg"))).
Proof.
  pose proof (complete_links_to_gallery_name demo_segs) as H.
  assert (H1 : Forall (fun seg => plain_segment seg = true) demo_segs)
    by (repeat constructor).
  specialize (H H1 lab "b.JPG" without_upscale demo_unconfigured). cbv zeta in H.
  assert (H2 : successful
                 (since demo_unconfigured
                    (processImage (absolute demo_segs) lab (VStr "b.JPG") without_upscale
                       demo_unconfigured).2)).
  { exists (VStr "b.JPG"), "/output/b.jpg". by_computation. }
  destruct (H H2) as (Hlast & _). exact Hlast.
Defined.

Lemma gallery_lists_output_images_witness :
  exists entries,
    get_files demo_root lab demo_unconfigured
    = (Ok entries, record (Readdir (output (DIRS demo_root))) demo_unconfigured) /\
    map file_name entries = List.filter is_output_image ["old.jpg"] /\
    Forall (describes demo_root (fs demo_unconfigured)) entries.
Proof.
  pose proof (gallery_lists_output_images demo_root lab ["old.jpg"] demo_unconfigured) as H.
  assert (H1 : readdir lab (fs demo_unconfigured) (output (DIRS demo_root))
               = Resolved ["old.jpg"]) by by_computation.
  assert (H2 : forall f, In f ["old.jpg"] -> is_output_image f = true ->
                         is_Some (fs demo_unconfigured
                                    !! path.join (output (DIRS demo_root)) f)).
  { intros f [<-|[]] _. exists "O". by_computation. }
  exact (H H1 H2).
Defined.

Lemma gallery_fails_as_a_whole_witness :
  exists g, In g ["old.jpg"; "link.jpg"] /\ is_output_image g = true /\
    get_files demo_root lab_dangling demo_unconfigured
    = (Throw (Enoent "stat" (path.join (output (DIRS demo_root)) g)),
       record (Readdir (output (DIRS demo_root))) demo_unconfigured).
Proof.
  pose proof (gallery_fails_as_a_whole demo_root lab_dangling ["old.jpg"; "link.jpg"]
                "link.jpg" demo_unconfigured) as H.
  assert (H1 : readdir lab_dangling (fs demo_unconfigured) (output (DIRS demo_root))
               = Resolved ["old.jpg"; "link.jpg"]) by reflexivity.
  assert (H2 : In "link.jpg" ["old.jpg"; "link.jpg"]) by (right; left; reflexivity).
  assert (H3 : is_output_image "link.jpg" = true) by by_computation.
  assert (H4 : fs demo_unconfigured !! path.join (output (DIRS demo_root)) "link.jpg" = None)
    by by_computation.
  exact (H H1 H2 H3 H4).
Defined.

Lemma completed_image_in_gallery_witness :
  exists entries e,
    (get_files (absolute demo_segs) lab
       (processImage (absolute demo_segs) lab (VStr "a.png") without_upscale
          demo_unconfigured).2).1 = Ok entries /\
    In e entries /\ file_name e = path.parse_name "a.png" +:+ ".jpg" /\
    last (since demo_unconfigured
            (processImage (absolute demo_segs) lab (VStr "a.png") without_upscale
               demo_unconfigured).2)
    = Some (Emit (EvComplete (VStr "a.png") (file_url e))).
Proof.
  pose proof (completed_image_in_gallery demo_segs lab "a.png" without_upscale
                ["old.jpg"; "a.jpg"] demo_unconfigured) as H.
  assert (H1 : Forall (fun seg => plain_segment seg = true) demo_segs)
    by (repeat constructor).
  specialize (H H1). cbv zeta in H.
  assert (H2 : successful
                 (since demo_unconfigured
                    (processImage (absolute demo_segs) lab (VStr "a.png") without_upscale
                       demo_unconfigured).2)).
  { exists (VStr "a.png"), "/output/a.jpg". by_computation. }
  assert (H3 : readdir lab
                 (fs (processImage (absolute demo_segs) lab (VStr "a.png") without_upscale
                        demo_unconfigured).2)
                 (output (DIRS (absolute demo_segs)))
               = Resolved ["old.jpg"; "a.jpg"]) by by_computation.
  assert (H4 : In (path.parse_name "a.png" +:+ ".jpg") ["old.jpg"; "a.jpg"])
    by (right; left; by_computation).
  assert (H5 : forall g, In g ["old.jpg"; "a.jpg"] -> is_output_image g = true ->
                 is_Some (fs (processImage (absolute demo_segs) lab (VStr "a.png")
                                without_upscale demo_unconfigured).2
                          !! path.join (output (DIRS (absolute demo_segs))) g)).
  { intros g [<-|[<-|[]]] _.
    - exists "O". by_computation.
    - exists "jpeg(srgb(A),Akhlaque,a.png)". by_computation. }
  exact (H H2 H3 H4 H5).
Defined.

Lemma upload_moves_files_witness :
  (post_upload demo_root demo_uploads demo_uploaded).1 = Ok (length demo_uploads) /\
  (forall x, In x demo_uploads ->
     fs (post_upload demo_root demo_uploads demo_uploaded).2 !! file_path x = None).
Proof.
  pose proof (upload_moves_files demo_root demo_uploads demo_uploaded) as H.
  cbv zeta in H.
  assert (H1 : List.NoDup (map file_path demo_uploads)).
  { repeat constructor; vm_compute; intuition discriminate. }
  assert (H2 : forall x, In x demo_uploads -> is_Some (fs demo_uploaded !! file_path x)).
  { intros x [<-|[<-|[]]]; [exists "first"|exists "second"]; by_computation. }
  assert (H3 : forall x y, In x demo_uploads -> In y demo_uploads ->
                           file_path x <> target demo_root y).
  { intros x y [<-|[<-|[]]] [<-|[<-|[]]]; vm_compute; discriminate. }
  destruct (H H1 H2 H3) as (Hres & Hgone & _). split; [exact Hres|exact Hgone].
Defined.

Lemma upload_stops_at_missing_file_witness :
  (post_upload demo_root (demo_uploads ++ [demo_lost_upload]) demo_uploaded).1
  = Throw (Enoent "rename" (file_path demo_lost_upload +:+ "' -> '"
                            +:+ target demo_root demo_lost_upload)) /\
  (forall x, In x demo_uploads ->
     fs (post_upload demo_root (demo_uploads ++ [demo_lost_upload]) demo_uploaded).2
       !! file_path x = None).
Proof.
  pose proof (upload_stops_at_missing_file demo_root demo_uploads demo_lost_upload []
                demo_uploaded) as H.
  cbv zeta in H.
  assert (H1 : List.NoDup (map file_path demo_uploads)).
  { repeat constructor; vm_compute; intuition discriminate. }
  assert (H2 : forall x, In x demo_uploads -> is_Some (fs demo_uploaded !! file_path x)).
  { intros x [<-|[<-|[]]]; [exists "first"|exists "second"]; by_computation. }
  assert (H3 : forall x y, In x demo_uploads -> In y demo_uploads ->
                           file_path x <> target demo_root y).
  { intros x y [<-|[<-|[]]] [<-|[<-|[]]]; vm_compute; discriminate. }
  assert (H4 : fs demo_uploaded !! file_path demo_lost_upload = None) by by_computation.
  assert (H5 : forall y, In y demo_uploads ->
                         file_path demo_lost_upload <> target demo_root y).
  { intros y [<-|[<-|[]]]; vm_compute; discriminate. }
  destruct (H H1 H2 H3 H4 H5) as (Hres & _ & Hgone). split; [exact Hres|exact Hgone].
Defined.

Lemma page_after_run_witness :
  statusText demo_page_failed
  = "Error: " +:+ "Input file is missing: /srv/app/input/ghost.png" /\
  statusColor demo_page_failed = "#ef4444" /\
  stalled (barWidth demo_page_failed).
Proof.
  pose proof (page_after_run demo_root lab "ghost.png" without_upscale demo_unconfigured
                demo_happenings demo_page_completed demo_page_failed) as H.
  cbv zeta in H.
  assert (H1 : arrivals demo_happenings
               = events (since demo_unconfigured
                           (processImage demo_root lab (VStr "ghost.png") without_upscale
                              demo_unconfigured).2)) by by_computation.
  assert (H2 : displayed demo_happenings demo_page_completed = Some demo_page_failed)
    by by_computation.
  destruct (H H1 H2) as [_ Hfailed].
  assert (H3 : last (since demo_unconfigured
                       (processImage demo_root lab (VStr "ghost.png") without_upscale
                          demo_unconfigured).2)
               = Some (Emit (EvError (VStr "ghost.png")
                               "Input file is missing: /srv/app/input/ghost.png")))
    by by_computation.
  destruct (Hfailed _ H3) as (_ & Htext & Hcolour & _ & Hbar & _).
  split; [exact Htext|]. split; [exact Hcolour|exact Hbar].
Defined.

Lemma saved_path_round_trip_witness :
  exists view,
    get_config (post_config (VObj [("path", VStr demo_bin)]) demo_unconfigured).2
    = (Ok view, (post_config (VObj [("path", VStr demo_bin)]) demo_unconfigured).2) /\
    shown_path view = Some demo_bin /\
    (upscaylAvailable view = true <-> is_Some (fs demo_unconfigured !! demo_bin)).
Proof.
  pose proof (saved_path_round_trip demo_bin (VObj [("path", VStr demo_bin)])
                demo_unconfigured) as H.
  cbv zeta in H.
  assert (H1 : save_request demo_bin = Some (VObj [("path", VStr demo_bin)]))
    by by_computation.
  destruct (H H1) as (_ & _ & _ & Hview). exact Hview.
Defined.
